(** * socket_binder: a shallow embedding of [c/src/socket_binder.c]

    The program is a straight-line sequence of libc and system calls, each
    of which may fail.  It is embedded in a state-and-exit monad over a
    [world] that holds what the process can observe of its environment
    (the environment variables, the name [mkdtemp] will pick, the values
    that the calls return) and what an observer can see of the process
    (the chronological trace of its calls).  [err(3)] does not return, so
    it is the [Exit] outcome of the monad.

    C strings are strings, [int]s are integers wrapped to 32 bits, the one
    heap block of the program lives in a small heap, and the flags are the
    bit masks of Linux on x86-64.

    The result of every fallible call is given by an oracle, so a run is
    determined by the environment, the name that [mkdtemp] picks and the
    oracle.  The runs of the model are the runs in which every call
    returns: a process that a signal ends inside a call (SIGPIPE in a
    write or in [sendmsg]) or that waits for ever in [accept4] has no
    outcome here, and nothing below speaks of it.  What the calls do to the system is the business of a small
    kernel model, [Kernel], that replays a trace: it tracks the descriptor
    table, the state of the sockets, the directory entries, the text that
    reached standard output and the files handed to a peer. *)

From Stdlib Require Import ZArith List String Ascii Bool Lia.
From Stdlib Require Import DecimalString DecimalFacts.
From Stdlib Require DecimalZ DecimalPos.
Import ListNotations.

Local Open Scope string_scope.
Local Open Scope Z_scope.

(** ** C integers and [printf] conversions *)

Definition INT_MAX : Z := 2147483647.

(** A value of C type [int]: 32 bits, two's complement. *)
Definition to_int (z : Z) : Z := (z + 2147483648) mod 4294967296 - 2147483648.

(** The [%d] conversion. *)
Definition fmt_d (z : Z) : string := NilZero.string_of_int (Z.to_int z).

(** [snprintf(buf, size, ...)] where [s] is the fully formatted text: the
    buffer receives at most [size - 1] characters (and the terminating
    NUL); the return value is the length of the full text, or a negative
    value when that length is not representable in an [int]. *)
Definition snprintf (size : Z) (s : string) : string * Z :=
  (substring 0 (Z.to_nat (size - 1)) s,
   if INT_MAX <? Z.of_nat (String.length s) then -1
   else Z.of_nat (String.length s)).

(** ** Constants of the system headers (Linux, x86-64) *)

Definition AF_UNIX : Z := 1.
Definition SOCK_STREAM : Z := 1.
Definition SOCK_CLOEXEC : Z := 524288.   (* 02000000 *)
Definition O_DIRECTORY : Z := 65536.     (* 0200000 *)
Definition O_NOFOLLOW : Z := 131072.     (* 0400000 *)
Definition O_CLOEXEC : Z := 524288.      (* 02000000 *)
Definition SOL_SOCKET : Z := 1.
Definition SCM_RIGHTS : Z := 1.

Definition sizeof_int : Z := 4.
Definition sizeof_char : Z := 1.
Definition sizeof_size_t : Z := 8.
Definition sizeof_cmsghdr : Z := 16.
Definition sizeof_sun_path : Z := 108.
Definition sizeof_sockaddr_un : Z := 110.

Definition CMSG_ALIGN (len : Z) : Z :=
  Z.land (len + sizeof_size_t - 1) (Z.lnot (sizeof_size_t - 1)).
Definition CMSG_LEN (len : Z) : Z := CMSG_ALIGN sizeof_cmsghdr + len.
Definition CMSG_SPACE (len : Z) : Z := CMSG_ALIGN len + CMSG_ALIGN sizeof_cmsghdr.

(** ** Structures passed to the kernel *)

Record sockaddr_un := { sun_family : Z; sun_path : string }.

Record cmsghdr := { cmsg_len : Z; cmsg_level : Z; cmsg_type : Z }.

(** A control message: its header and the [int]s stored at [CMSG_DATA]. *)
Record cmsg := { cm_hdr : cmsghdr; cm_data : list Z }.

Record iovec := { iov_base : list Z; iov_len : Z }.

Record msghdr := {
  msg_name : option sockaddr_un;
  msg_namelen : Z;
  msg_iov : list iovec;
  msg_iovlen : Z;
  msg_control : list cmsg;
  msg_controllen : Z
}.

(** ** Events: the calls of the process, with their results *)

Definition ptr : Type := nat.

Inductive event : Type :=
| EAsprintf (text : string) (ret : Z) (p : ptr)
| EMkdtemp (template : string) (res : option string)
| EOpen (path : string) (flags : Z) (ret : Z)
| ESocket (domain type protocol : Z) (ret : Z)
| EBind (fd : Z) (addr : sockaddr_un) (len : Z) (ret : Z)
| EListen (fd backlog : Z) (ret : Z)
| EDprintf (fd : Z) (text : string) (ret : Z)
| EClose (fd : Z) (ret : Z)
| EAccept4 (fd flags : Z) (ret : Z)
| EUnlinkat (dirfd : Z) (name : string) (flags : Z) (ret : Z)
| ESendmsg (fd : Z) (msg : msghdr) (flags : Z) (ret : Z)
| EFree (p : ptr)
| EErr (status : Z) (msg : string).

(** ** The world *)

Record world := {
  w_environ : list (string * string);  (* the environment variables *)
  w_random : string;                   (* what mkdtemp puts in place of XXXXXX *)
  w_oracle : nat -> Z;                 (* result of the n-th fallible call *)
  w_calls : nat;                       (* fallible calls made so far *)
  w_heap : list (option string);       (* malloc'ed strings; None once freed *)
  w_trace : list event                 (* the calls so far, oldest first *)
}.

Definition set_calls (n : nat) (w : world) : world :=
  {| w_environ := w_environ w; w_random := w_random w; w_oracle := w_oracle w;
     w_calls := n; w_heap := w_heap w; w_trace := w_trace w |}.

Definition set_heap (h : list (option string)) (w : world) : world :=
  {| w_environ := w_environ w; w_random := w_random w; w_oracle := w_oracle w;
     w_calls := w_calls w; w_heap := h; w_trace := w_trace w |}.

Definition set_trace (t : list event) (w : world) : world :=
  {| w_environ := w_environ w; w_random := w_random w; w_oracle := w_oracle w;
     w_calls := w_calls w; w_heap := w_heap w; w_trace := t |}.

(** ** The monad: state, and exit of the process *)

Inductive outcome (A : Type) : Type :=
| Ret (a : A) (w : world)
| Exit (status : Z) (w : world).
Arguments Ret {A} a w.
Arguments Exit {A} status w.

Definition M (A : Type) : Type := world -> outcome A.

Definition ret {A} (a : A) : M A := fun w => Ret a w.

Definition bind {A B} (c : M A) (k : A -> M B) : M B :=
  fun w => match c w with
           | Ret a w' => k a w'
           | Exit s w' => Exit s w'
           end.

Declare Scope prog_scope.
Delimit Scope prog_scope with prog.
Notation "x <- c ;; k" := (bind c (fun x => k))
  (at level 61, c at next level, right associativity) : prog_scope.
Notation "' pat <- c ;; k" := (bind c (fun x => match x with pat => k end))
  (at level 61, pat pattern, c at next level, right associativity) : prog_scope.
Notation "c ;; k" := (bind c (fun _ => k))
  (at level 61, right associativity) : prog_scope.
Local Open Scope prog_scope.

Definition final {A} (o : outcome A) : world :=
  match o with Ret _ w => w | Exit _ w => w end.

(** The exit status of the process whose [main] had outcome [o]. *)
Definition exit_status (o : outcome Z) : Z :=
  match o with Ret a _ => a | Exit s _ => s end.

(** What can be observed of a run: its calls and its exit status. *)
Definition observe (o : outcome Z) : list event * Z :=
  (w_trace (final o), exit_status o).

(** ** Primitive operations *)

Definition log (e : event) : M unit :=
  fun w => Ret tt (set_trace (w_trace w ++ [e]) w).

(** The value the environment gives to the next fallible call. *)
Definition next : M Z :=
  fun w => Ret (to_int (w_oracle w (w_calls w))) (set_calls (S (w_calls w)) w).

(** [err(status, msg)] writes the program name, [msg] and the text of
    [errno] to standard error, then exits with [status].  The trace keeps
    [msg], the part that the program chooses. *)
Definition err {A} (status : Z) (msg : string) : M A :=
  fun w => Exit status (set_trace (w_trace w ++ [EErr status msg]) w).

Fixpoint lookup_env (name : string) (env : list (string * string)) : option string :=
  match env with
  | [] => None
  | (k, v) :: env' => if String.eqb k name then Some v else lookup_env name env'
  end.

Definition getenv (name : string) : M (option string) :=
  fun w => Ret (lookup_env name (w_environ w)) w.

(** *** The heap: only [asprintf] allocates *)

Definition deref (p : ptr) : M string :=
  fun w => Ret (match nth_error (w_heap w) p with
                | Some (Some s) => s
                | _ => ""
                end) w.

Fixpoint update {A} (n : nat) (x : A) (l : list A) : list A :=
  match l, n with
  | [], _ => []
  | _ :: l', O => x :: l'
  | y :: l', S n' => y :: update n' x l'
  end.

Definition store (p : ptr) (s : option string) : M unit :=
  fun w => Ret tt (set_heap (update p s (w_heap w)) w).

Definition malloc_string (s : string) : M ptr :=
  fun w => Ret (List.length (w_heap w)) (set_heap (w_heap w ++ [Some s]) w).

(** [asprintf(&p, ...)] where [s] is the formatted text. On failure the
    pointer is left undefined (here: 0). *)
Definition asprintf (s : string) : M (Z * ptr) :=
  r <- next ;;
  if r <? 0 then log (EAsprintf s r O) ;; ret (r, O)
  else
    p <- malloc_string s ;;
    let n := Z.of_nat (String.length s) in
    log (EAsprintf s n p) ;; ret (n, p).

Definition free (p : ptr) : M unit :=
  store p None ;; log (EFree p).

(** *** [mkdtemp] *)

Definition ends_with_X6 (s : string) : bool :=
  (6 <=? String.length s)%nat &&
  String.eqb (substring (String.length s - 6) 6 s) "XXXXXX".

(** [mkdtemp(template)] refuses a template that does not end in XXXXXX
    and leaves it as it is.  Otherwise it writes the name it tries in
    place of the trailing XXXXXX, and then creates the directory: it
    returns [template] when that succeeds and NULL when it fails, and in
    both cases the block holds the name that was tried. *)
Definition mkdtemp (template : ptr) : M (option ptr) :=
  t <- deref template ;;
  r <- next ;;
  if negb (ends_with_X6 t) then log (EMkdtemp t None) ;; ret None
  else
    rnd <- (fun w => Ret (w_random w) w) ;;
    let d := substring 0 (String.length t - 6) t ++ rnd in
    store template (Some d) ;;
    if r <? 0 then log (EMkdtemp t None) ;; ret None
    else log (EMkdtemp t (Some d)) ;; ret (Some template).

(** *** System calls: the kernel's answer comes from the oracle *)

Definition open (path : string) (flags : Z) : M Z :=
  r <- next ;; log (EOpen path flags r) ;; ret r.

Definition socket (domain type protocol : Z) : M Z :=
  r <- next ;; log (ESocket domain type protocol r) ;; ret r.

Definition bind_ (fd : Z) (addr : sockaddr_un) (len : Z) : M Z :=
  r <- next ;; log (EBind fd addr len r) ;; ret r.

Definition listen (fd backlog : Z) : M Z :=
  r <- next ;; log (EListen fd backlog r) ;; ret r.

Definition dprintf (fd : Z) (text : string) : M Z :=
  r <- next ;; log (EDprintf fd text r) ;; ret r.

Definition close (fd : Z) : M Z :=
  r <- next ;; log (EClose fd r) ;; ret r.

Definition accept4 (fd flags : Z) : M Z :=
  r <- next ;; log (EAccept4 fd flags r) ;; ret r.

Definition unlinkat (dirfd : Z) (name : string) (flags : Z) : M Z :=
  r <- next ;; log (EUnlinkat dirfd name flags r) ;; ret r.

Definition sendmsg (fd : Z) (msg : msghdr) (flags : Z) : M Z :=
  r <- next ;; log (ESendmsg fd msg flags r) ;; ret r.

(** The newline character of the format strings. *)
Definition nl : string := String "010" "".

(** ** The program *)

Definition make_private_dir : M ptr :=
  tmpdir <- getenv "XDG_RUNTIME_DIR" ;;
  tmpdir <- (match tmpdir with
             | None => getenv "TMPDIR"
             | Some _ => ret tmpdir
             end) ;;
  let tmpdir := match tmpdir with None => "/tmp" | Some t => t end in
  '(r, template) <- asprintf (tmpdir ++ "/XXXXXX") ;;
  (if r <? 0 then err 1 "asprintf" else ret tt) ;;
  dirname <- mkdtemp template ;;
  match dirname with
  | None => err 1 "mkdtemp"
  | Some dirname => ret dirname
  end.

Definition listen_unix_socket (dirfd : Z) (name : string) : M Z :=
  let '(path, r) :=
    snprintf sizeof_sun_path ("/proc/self/fd/" ++ fmt_d dirfd ++ "/" ++ name) in
  let addr := {| sun_family := AF_UNIX; sun_path := path |} in
  (if r <? 0 then err 1 "snprintf" else ret tt) ;;
  sockfd <- socket AF_UNIX SOCK_STREAM 0 ;;
  (if sockfd <? 0 then err 1 "socket" else ret tt) ;;
  r <- bind_ sockfd addr sizeof_sockaddr_un ;;
  (if r <? 0 then err 1 "bind" else ret tt) ;;
  r <- listen sockfd 10 ;;
  (if r <? 0 then err 1 "listen" else ret tt) ;;
  ret sockfd.

(** The control buffer of [main]: a union of a [cmsghdr] and
    [CMSG_SPACE(sizeof(int))] bytes. *)
Definition sizeof_cmsg : Z := Z.max sizeof_cmsghdr (CMSG_SPACE sizeof_int).

Definition handoff_msg (datasock : Z) : msghdr :=
  let cmsg := {| cm_hdr := {| cmsg_len := CMSG_LEN sizeof_int;
                              cmsg_level := SOL_SOCKET;
                              cmsg_type := SCM_RIGHTS |};
                 cm_data := [datasock] |} in
  let waste_data := 0 in
  let io := {| iov_base := [waste_data]; iov_len := sizeof_char |} in
  {| msg_name := None;
     msg_namelen := 0;
     msg_iov := [io];
     msg_iovlen := 1;
     msg_control := [cmsg];
     msg_controllen := sizeof_cmsg |}.

Definition main : M Z :=
  dir <- make_private_dir ;;
  path <- deref dir ;;
  dirfd <- open path (Z.lor O_DIRECTORY O_CLOEXEC) ;;
  (if dirfd <? 0 then err 1 "open" else ret tt) ;;
  datasock <- listen_unix_socket dirfd "data" ;;
  path <- deref dir ;;
  dprintf 1 (path ++ "/data" ++ nl) ;;
  passsock <- listen_unix_socket dirfd "pass" ;;
  path <- deref dir ;;
  dprintf 1 (path ++ "/pass" ++ nl) ;;
  dprintf 1 ("done" ++ nl) ;;
  r <- close 1 ;;
  (if r <? 0 then err 1 "close(1)" else ret tt) ;;
  connsock <- accept4 passsock SOCK_CLOEXEC ;;
  (if connsock <? 0 then err 1 "accept4(passsock)" else ret tt) ;;
  r <- close passsock ;;
  (if r <? 0 then err 1 "close(passsock)" else ret tt) ;;
  r <- unlinkat dirfd "pass" 0 ;;
  (if r <? 0 then err 1 "unlinkat" else ret tt) ;;
  let msg := handoff_msg datasock in
  r <- sendmsg connsock msg 0 ;;
  (if r <? 0
   then err 1 ("sendmsg(connsock=" ++ fmt_d connsock
               ++ ", {msg={datasock=" ++ fmt_d datasock ++ "}})")
   else ret tt) ;;
  r <- close connsock ;;
  (if r <? 0 then err 1 "close(connsock)" else ret tt) ;;
  free dir ;;
  r <- close datasock ;;
  (if r <? 0 then err 1 "close(connsock)" else ret tt) ;;
  r <- close dirfd ;;
  (if r <? 0 then err 1 "close(connsock)" else ret tt) ;;
  ret 0.

(** The world after [n] more fallible calls and the calls [evs]. *)
Definition advance (n : nat) (evs : list event) (w : world) : world :=
  {| w_environ := w_environ w; w_random := w_random w; w_oracle := w_oracle w;
     w_calls := n + w_calls w; w_heap := w_heap w; w_trace := w_trace w ++ evs |}.

(** What [listen_unix_socket] does once the address is [addr], with the
    results [s], [b] and [l] of its three calls. *)
Definition bind_and_listen (addr : sockaddr_un) (s b l : Z) (w : world) : outcome Z :=
  let so := ESocket AF_UNIX SOCK_STREAM 0 s in
  let bi := EBind s addr sizeof_sockaddr_un b in
  let li := EListen s 10 l in
  if s <? 0 then Exit 1 (advance 1 [so; EErr 1 "socket"] w)
  else if b <? 0 then Exit 1 (advance 2 [so; bi; EErr 1 "bind"] w)
  else if l <? 0 then Exit 1 (advance 3 [so; bi; li; EErr 1 "listen"] w)
  else Ret s (advance 3 [so; bi; li] w).

(** An initial world. *)
Definition boot (env : list (string * string)) (rnd : string) (o : nat -> Z) : world :=
  {| w_environ := env; w_random := rnd; w_oracle := o;
     w_calls := 0; w_heap := []; w_trace := [] |}.

(** An oracle given by the list of its first answers (0 afterwards). *)
Definition answers (l : list Z) : nat -> Z := fun n => nth n l 0.

(** ** A kernel model: what the calls of a trace do to the system *)

Module Kernel.

Inductive sock_state : Type :=
| Unbound
| Bound (path : string)
| Listening (path : string) (backlog : Z) (accepted : nat)
| Connected.

Inductive file_kind : Type :=
| KStdout                       (* the standard output stream *)
| KStream                       (* another inherited stream *)
| KDir (path : string)
| KSock (st : sock_state).

Record file := { f_kind : file_kind; f_cloexec : bool }.

Record kernel := {
  k_fds : list (Z * file);   (* the descriptor table, newest entry first *)
  k_fs : list string;        (* the directory entries, as absolute paths *)
  k_out : list string;       (* what standard output received, in order *)
  k_err : list string;       (* the diagnostics on standard error *)
  k_passed : list file;      (* the open files handed to a peer *)
  k_sane : bool              (* no new descriptor was one already open *)
}.

Definition has_flag (flags flag : Z) : bool := negb (Z.land flags flag =? 0).

Fixpoint fd_lookup (fd : Z) (t : list (Z * file)) : option file :=
  match t with
  | [] => None
  | (fd', f) :: t' => if fd' =? fd then Some f else fd_lookup fd t'
  end.

Fixpoint fd_remove (fd : Z) (t : list (Z * file)) : list (Z * file) :=
  match t with
  | [] => []
  | (fd', f) :: t' => if fd' =? fd then fd_remove fd t' else (fd', f) :: fd_remove fd t'
  end.

Fixpoint fd_update (fd : Z) (f : file) (t : list (Z * file)) : list (Z * file) :=
  match t with
  | [] => []
  | (fd', f') :: t' => if fd' =? fd then (fd, f) :: t' else (fd', f') :: fd_update fd f t'
  end.

Definition fd_open (fd : Z) (t : list (Z * file)) : bool :=
  match fd_lookup fd t with Some _ => true | None => false end.

(** If [s] starts with [p], what follows [p] in [s]. *)
Fixpoint strip_prefix (p s : string) : option string :=
  match p, s with
  | EmptyString, _ => Some s
  | String a p', String b s' => if Ascii.eqb a b then strip_prefix p' s' else None
  | String _ _, EmptyString => None
  end.

(** The file a path names: [/proc/self/fd/<n>/<rest>] is [<rest>] in the
    directory open at descriptor [n]; any other path names itself. *)
Fixpoint resolve_in (t : list (Z * file)) (path : string) : option string :=
  match t with
  | [] => None
  | (fd, f) :: t' =>
      match f_kind f, strip_prefix ("/proc/self/fd/" ++ fmt_d fd ++ "/") path with
      | KDir d, Some rest => Some (d ++ "/" ++ rest)
      | _, _ => resolve_in t' path
      end
  end.

Definition resolve (t : list (Z * file)) (path : string) : string :=
  match resolve_in t path with Some p => p | None => path end.

Fixpoint remove_path (p : string) (fs : list string) : list string :=
  match fs with
  | [] => []
  | q :: fs' => if String.eqb q p then remove_path p fs' else q :: remove_path p fs'
  end.

Definition exists_path (p : string) (fs : list string) : bool :=
  existsb (String.eqb p) fs.

(** The bytes that one buffer of a message gives: the first [iov_len]
    bytes of the object at [iov_base]; none when [iov_len] is more than
    that object holds, as the call would then read past it. *)
Definition iov_bytes (io : iovec) : option (list Z) :=
  if (0 <=? iov_len io) && (iov_len io <=? Z.of_nat (List.length (iov_base io)))
  then Some (firstn (Z.to_nat (iov_len io)) (iov_base io))
  else None.

Fixpoint gather (l : list iovec) : option (list Z) :=
  match l with
  | [] => Some []
  | io :: l' =>
      match iov_bytes io, gather l' with
      | Some a, Some b => Some (a ++ b)%list
      | _, _ => None
      end
  end.

(** The bytes of ordinary payload of a message: those of its first
    [msg_iovlen] buffers; none when the message has fewer buffers. *)
Definition payload (m : msghdr) : option (list Z) :=
  if (0 <=? msg_iovlen m) && (msg_iovlen m <=? Z.of_nat (List.length (msg_iov m)))
  then gather (firstn (Z.to_nat (msg_iovlen m)) (msg_iov m))
  else None.

(** The descriptors a control message of type SCM_RIGHTS carries. *)
Definition cmsg_fds (c : cmsg) : list Z :=
  if (cmsg_level (cm_hdr c) =? SOL_SOCKET) && (cmsg_type (cm_hdr c) =? SCM_RIGHTS)
  then firstn (Z.to_nat ((cmsg_len (cm_hdr c) - CMSG_LEN 0) / sizeof_int)) (cm_data c)
  else [].

(** The control messages that lie within the first [room] bytes of the
    control buffer: each has a whole header, ends within the buffer, and
    the next one starts at the next aligned offset. *)
Fixpoint cmsgs_within (room : Z) (cs : list cmsg) : list cmsg :=
  match cs with
  | [] => []
  | c :: cs' =>
      if (sizeof_cmsghdr <=? cmsg_len (cm_hdr c)) && (cmsg_len (cm_hdr c) <=? room)
      then c :: cmsgs_within (room - CMSG_ALIGN (cmsg_len (cm_hdr c))) cs'
      else []
  end.

(** The descriptors that a message carries: those of the control
    messages within its [msg_controllen] bytes of control data. *)
Definition passed_fds (m : msghdr) : list Z :=
  flat_map cmsg_fds (cmsgs_within (msg_controllen m) (msg_control m)).

Fixpoint files_of (fds : list Z) (t : list (Z * file)) : list file :=
  match fds with
  | [] => []
  | fd :: fds' =>
      match fd_lookup fd t with
      | Some f => f :: files_of fds' t
      | None => files_of fds' t
      end
  end.

(** The effect of one call on each part of the system.  A call that
    failed has no effect. *)

Definition dir_file (path : string) (flags : Z) : file :=
  {| f_kind := KDir path; f_cloexec := has_flag flags O_CLOEXEC |}.

Definition sock_file (st : sock_state) (cloexec : bool) : file :=
  {| f_kind := KSock st; f_cloexec := cloexec |}.

Definition step_fds (t : list (Z * file)) (e : event) : list (Z * file) :=
  match e with
  | EOpen path flags r =>
      if r <? 0 then t else (r, dir_file path flags) :: t
  | ESocket _ type _ r =>
      if r <? 0 then t
      else (r, sock_file Unbound (has_flag type SOCK_CLOEXEC)) :: t
  | EBind fd addr _ r =>
      if r <? 0 then t
      else match fd_lookup fd t with
           | Some {| f_kind := KSock Unbound; f_cloexec := c |} =>
               fd_update fd (sock_file (Bound (resolve t (sun_path addr))) c) t
           | _ => t
           end
  | EListen fd backlog r =>
      if r <? 0 then t
      else match fd_lookup fd t with
           | Some {| f_kind := KSock (Bound p); f_cloexec := c |} =>
               fd_update fd (sock_file (Listening p backlog 0) c) t
           | _ => t
           end
  | EAccept4 fd flags r =>
      if r <? 0 then t
      else
        let conn := sock_file Connected (has_flag flags SOCK_CLOEXEC) in
        match fd_lookup fd t with
        | Some {| f_kind := KSock (Listening p b n); f_cloexec := c |} =>
            (r, conn) :: fd_update fd (sock_file (Listening p b (S n)) c) t
        | _ => (r, conn) :: t
        end
  | EClose fd r => if r <? 0 then t else fd_remove fd t
  | _ => t
  end.

Definition step_fs (t : list (Z * file)) (fs : list string) (e : event) : list string :=
  match e with
  | EMkdtemp _ (Some d) => d :: fs
  | EBind fd addr _ r =>
      if r <? 0 then fs
      else match fd_lookup fd t with
           | Some {| f_kind := KSock Unbound |} => resolve t (sun_path addr) :: fs
           | _ => fs
           end
  | EUnlinkat dirfd name _ r =>
      if r <? 0 then fs
      else match fd_lookup dirfd t with
           | Some {| f_kind := KDir d |} => remove_path (d ++ "/" ++ name) fs
           | _ => fs
           end
  | _ => fs
  end.

Definition step_out (t : list (Z * file)) (out : list string) (e : event) : list string :=
  match e with
  | EDprintf fd text r =>
      if r <? 0 then out
      else match fd_lookup fd t with
           | Some {| f_kind := KStdout |} => out ++ [text]
           | _ => out
           end
  | _ => out
  end.

Definition step_err (errs : list string) (e : event) : list string :=
  match e with
  | EErr _ msg => errs ++ [msg]
  | _ => errs
  end.

Definition step_passed (t : list (Z * file)) (ps : list file) (e : event) : list file :=
  match e with
  | ESendmsg fd msg _ r =>
      if r <? 0 then ps else ps ++ files_of (passed_fds msg) t
  | _ => ps
  end.

Definition step_sane (t : list (Z * file)) (sane : bool) (e : event) : bool :=
  match e with
  | EOpen _ _ r | ESocket _ _ _ r | EAccept4 _ _ r =>
      if r <? 0 then sane else sane && negb (fd_open r t)
  | _ => sane
  end.

Definition step (k : kernel) (e : event) : kernel :=
  {| k_fds := step_fds (k_fds k) e;
     k_fs := step_fs (k_fds k) (k_fs k) e;
     k_out := step_out (k_fds k) (k_out k) e;
     k_err := step_err (k_err k) e;
     k_passed := step_passed (k_fds k) (k_passed k) e;
     k_sane := step_sane (k_fds k) (k_sane k) e |}.

Definition replay (k : kernel) (tr : list event) : kernel := fold_left step tr k.

(** Each call of a trace with the state of the system just before it. *)
Fixpoint history (k : kernel) (tr : list event) : list (kernel * event) :=
  match tr with
  | [] => []
  | e :: tr' => (k, e) :: history (step k e) tr'
  end.

(** The system [k] once [path] has been opened as a directory at [fd]. *)
Definition fd_alloc_dir (fd : Z) (path : string) (k : kernel) : kernel :=
  step k (EOpen path (Z.lor O_DIRECTORY O_CLOEXEC) fd).

(** The system when the process starts: the three standard streams are
    open and the file system holds [fs]. *)
Definition kernel0 (fs : list string) : kernel :=
  {| k_fds := [(0, {| f_kind := KStream; f_cloexec := false |});
               (1, {| f_kind := KStdout; f_cloexec := false |});
               (2, {| f_kind := KStream; f_cloexec := false |})];
     k_fs := fs; k_out := []; k_err := []; k_passed := []; k_sane := true |}.

(** Is some open socket listening at [path]? *)
Definition listening_at (path : string) (k : kernel) : bool :=
  existsb (fun '(_, f) => match f_kind f with
                          | KSock (Listening p _ _) => String.eqb p path
                          | _ => false
                          end) (k_fds k).

End Kernel.
Import Kernel.

(** ** The calls of a run, in order

    A description of the runs of [main] as data.  It is not part of the
    embedding: [main_play] and [main_success_world] prove that [main]
    behaves so, and the properties of [main] are proved through it. *)

(** The base directory and the private directory of a run. *)
Definition tmpdir_of (env : list (string * string)) : string :=
  match lookup_env "XDG_RUNTIME_DIR" env with
  | Some t => t
  | None => match lookup_env "TMPDIR" env with
            | Some t => t
            | None => "/tmp"
            end
  end.

Definition private_dir (env : list (string * string)) (rnd : string) : string :=
  tmpdir_of env ++ "/" ++ rnd.

Definition procfd (dirfd : Z) (name : string) : string :=
  "/proc/self/fd/" ++ fmt_d dirfd ++ "/" ++ name.

Definition unix_addr (path : string) : sockaddr_un :=
  {| sun_family := AF_UNIX; sun_path := path |}.

(** Did the call fail? *)
Definition failed (e : event) : bool :=
  match e with
  | EAsprintf _ r _ => r <? 0
  | EMkdtemp _ None => true
  | EMkdtemp _ (Some _) => false
  | EOpen _ _ r => r <? 0
  | ESocket _ _ _ r => r <? 0
  | EBind _ _ _ r => r <? 0
  | EListen _ _ r => r <? 0
  | EDprintf _ _ r => r <? 0
  | EClose _ r => r <? 0
  | EAccept4 _ _ r => r <? 0
  | EUnlinkat _ _ _ r => r <? 0
  | ESendmsg _ _ _ r => r <? 0
  | EFree _ => false
  | EErr _ _ => false
  end.

(** The calls [main] makes when none of them stops it, each with the
    diagnostic [main] gives when it does check the call's result. *)
Definition attempt (env : list (string * string)) (rnd : string) (o : nat -> Z)
  : list (event * option string) :=
  let r := fun n => to_int (o n) in
  let tpl := tmpdir_of env ++ "/XXXXXX" in
  let dir := private_dir env rnd in
  let dirfd := r 2%nat in
  let datasock := r 3%nat in
  let passsock := r 7%nat in
  let connsock := r 13%nat in
  [ (EAsprintf tpl (if r 0%nat <? 0 then r 0%nat else Z.of_nat (String.length tpl)) O,
     Some "asprintf");
    (EMkdtemp tpl (if r 1%nat <? 0 then None else Some dir), Some "mkdtemp");
    (EOpen dir (Z.lor O_DIRECTORY O_CLOEXEC) dirfd, Some "open");
    (ESocket AF_UNIX SOCK_STREAM 0 datasock, Some "socket");
    (EBind datasock (unix_addr (procfd dirfd "data")) sizeof_sockaddr_un (r 4%nat),
     Some "bind");
    (EListen datasock 10 (r 5%nat), Some "listen");
    (EDprintf 1 (dir ++ "/data" ++ nl) (r 6%nat), None);
    (ESocket AF_UNIX SOCK_STREAM 0 passsock, Some "socket");
    (EBind passsock (unix_addr (procfd dirfd "pass")) sizeof_sockaddr_un (r 8%nat),
     Some "bind");
    (EListen passsock 10 (r 9%nat), Some "listen");
    (EDprintf 1 (dir ++ "/pass" ++ nl) (r 10%nat), None);
    (EDprintf 1 ("done" ++ nl) (r 11%nat), None);
    (EClose 1 (r 12%nat), Some "close(1)");
    (EAccept4 passsock SOCK_CLOEXEC connsock, Some "accept4(passsock)");
    (EClose passsock (r 14%nat), Some "close(passsock)");
    (EUnlinkat dirfd "pass" 0 (r 15%nat), Some "unlinkat");
    (ESendmsg connsock (handoff_msg datasock) 0 (r 16%nat),
     Some ("sendmsg(connsock=" ++ fmt_d connsock
           ++ ", {msg={datasock=" ++ fmt_d datasock ++ "}})"));
    (EClose connsock (r 17%nat), Some "close(connsock)");
    (EFree O, None);
    (EClose datasock (r 18%nat), Some "close(connsock)");
    (EClose dirfd (r 19%nat), Some "close(connsock)") ].

(** Running a list of calls up to the first checked call that failed. *)
Fixpoint play (l : list (event * option string)) : list event * Z :=
  match l with
  | [] => ([], 0)
  | (e, None) :: l' => let (t, s) := play l' in (e :: t, s)
  | (e, Some msg) :: l' =>
      if failed e then ([e; EErr 1 msg], 1)
      else let (t, s) := play l' in (e :: t, s)
  end.

(** What a write that returned [r] delivered. *)
Definition delivered (r : Z) (text : string) : list string :=
  if r <? 0 then [] else [text].
Arguments delivered r%_Z text%_string.

(** The calls whose result [main] checks, by their rank among the
    fallible calls. *)
Definition checked_calls : list nat :=
  [0; 1; 2; 3; 4; 5; 7; 8; 9; 12; 13; 14; 15; 16; 17; 18; 19]%nat.

Definition all_succeed (o : nat -> Z) : bool :=
  forallb (fun n => negb (to_int (o n) <? 0)) checked_calls.

(** The calls of a run in which every checked call succeeds. *)
Definition success_calls (env : list (string * string)) (rnd : string) (o : nat -> Z)
  : list event :=
  let r := fun n => to_int (o n) in
  let tpl := tmpdir_of env ++ "/XXXXXX" in
  let dir := private_dir env rnd in
  let dirfd := r 2%nat in
  let datasock := r 3%nat in
  let passsock := r 7%nat in
  let connsock := r 13%nat in
  [ EAsprintf tpl (Z.of_nat (String.length tpl)) O;
    EMkdtemp tpl (Some dir);
    EOpen dir (Z.lor O_DIRECTORY O_CLOEXEC) dirfd;
    ESocket AF_UNIX SOCK_STREAM 0 datasock;
    EBind datasock (unix_addr (procfd dirfd "data")) sizeof_sockaddr_un (r 4%nat);
    EListen datasock 10 (r 5%nat);
    EDprintf 1 (dir ++ "/data" ++ nl) (r 6%nat);
    ESocket AF_UNIX SOCK_STREAM 0 passsock;
    EBind passsock (unix_addr (procfd dirfd "pass")) sizeof_sockaddr_un (r 8%nat);
    EListen passsock 10 (r 9%nat);
    EDprintf 1 (dir ++ "/pass" ++ nl) (r 10%nat);
    EDprintf 1 ("done" ++ nl) (r 11%nat);
    EClose 1 (r 12%nat);
    EAccept4 passsock SOCK_CLOEXEC connsock;
    EClose passsock (r 14%nat);
    EUnlinkat dirfd "pass" 0 (r 15%nat);
    ESendmsg connsock (handoff_msg datasock) 0 (r 16%nat);
    EClose connsock (r 17%nat);
    EFree O;
    EClose datasock (r 18%nat);
    EClose dirfd (r 19%nat) ].

(** ** Vocabulary of the properties *)

(** The three lines of the announcement. *)
Definition data_line (dir : string) : string := dir ++ "/data" ++ nl.
Definition pass_line (dir : string) : string := dir ++ "/pass" ++ nl.
Definition done_line : string := "done" ++ nl.

Definition is_dprintf (e : event) : bool :=
  match e with EDprintf _ _ _ => true | _ => false end.

Definition is_sendmsg (e : event) : bool :=
  match e with ESendmsg _ _ _ _ => true | _ => false end.

Definition is_accept4 (e : event) : bool :=
  match e with EAccept4 _ _ _ => true | _ => false end.

Definition is_socket (e : event) : bool :=
  match e with ESocket _ _ _ _ => true | _ => false end.

(** A failed [socket], [bind] or [listen]. *)
Definition binding_failed (e : event) : bool :=
  match e with
  | ESocket _ _ _ r | EBind _ _ _ r | EListen _ _ r => r <? 0
  | _ => false
  end.

(** Both sockets of the private directory [dir] are listening. *)
Definition both_listening (dir : string) (k : kernel) : bool :=
  listening_at (dir ++ "/data") k && listening_at (dir ++ "/pass") k.

(** The open sockets of a system. *)
Definition sockets (k : kernel) : list (Z * file) :=
  filter (fun fdf => match f_kind (snd fdf) with KSock _ => true | _ => false end)
         (k_fds k).

(** The state [k] in which the call [e] is made is ready for it, when [e]
    is a write.  When the data path is written the data socket listens
    and is the only socket there is: the pass socket has not been
    created, and nothing listens at the pass path.  When anything else is
    written both sockets listen. *)
Definition ready (dir : string) (ke : kernel * event) : Prop :=
  match snd ke with
  | EDprintf _ text _ =>
      listening_at (dir ++ "/data") (fst ke) = true /\
      (text = data_line dir ->
       List.length (sockets (fst ke)) = 1%nat /\
       listening_at (dir ++ "/pass") (fst ke) = false) /\
      (text <> data_line dir -> listening_at (dir ++ "/pass") (fst ke) = true)
  | _ => True
  end.

(** Both sockets listen when a connection is accepted. *)
Definition accepted_when_listening (dir : string) (ke : kernel * event) : Prop :=
  match snd ke with
  | EAccept4 _ _ _ => both_listening dir (fst ke) = true
  | _ => True
  end.

(** Every write is made with both sockets listening. *)
Definition written_when_listening (dir : string) (ke : kernel * event) : bool :=
  match snd ke with
  | EDprintf _ _ _ => both_listening dir (fst ke)
  | _ => true
  end.

(** The flags of an [open] of [path] are those of the directory handle. *)
Definition opens_handle (path : string) (e : event) : Prop :=
  match e with
  | EOpen p flags _ =>
      p = path /\
      has_flag flags O_DIRECTORY = true /\
      has_flag flags O_CLOEXEC = true /\
      has_flag flags O_NOFOLLOW = false
  | _ => True
  end.

(** Each call of a trace with the calls made before it. *)
Fixpoint with_past (past tr : list event) : list (list event * event) :=
  match tr with
  | [] => []
  | e :: tr' => (past, e) :: with_past (past ++ [e]) tr'
  end.

(** A removal is the removal of [pass] from the directory that was opened
    at [dir], after a connection was accepted. *)
Definition removes_only_pass (dir : string) (pe : list event * event) : Prop :=
  match snd pe with
  | EUnlinkat d name flags _ =>
      name = "pass" /\ flags = 0 /\
      In (EOpen dir (Z.lor O_DIRECTORY O_CLOEXEC) d) (fst pe) /\
      (exists fd conn, In (EAccept4 fd SOCK_CLOEXEC conn) (fst pe) /\ 0 <= conn)
  | _ => True
  end.

Definition is_open (e : event) : bool :=
  match e with EOpen _ _ _ => true | _ => false end.

(** ** Sample runs *)

(** A successful run: every call succeeds, the kernel hands out the
    descriptors 3, 4, 5 and then 1, which [close(1)] has just freed. *)
Definition good_answers : list Z :=
  [0; 0; 3; 4; 0; 0; 17; 5; 0; 0; 17; 5; 0; 1; 0; 0; 1; 0; 0; 0].

Definition good_run : outcome Z := main (boot [] "a1B2c3" (answers good_answers)).

(** The same, but each write to standard output fails (say with ENOSPC). *)
Definition mute_answers : list Z :=
  [0; 0; 3; 4; 0; 0; -1; 5; 0; 0; -1; -1; 0; 1; 0; 0; 1; 0; 0; 0].

Definition mute_run : outcome Z := main (boot [] "a1B2c3" (answers mute_answers)).

(** The creation of the pass socket fails. *)
Definition no_pass_answers : list Z := [0; 0; 3; 4; 0; 0; 17; -1].

Definition no_pass_run : outcome Z := main (boot [] "a1B2c3" (answers no_pass_answers)).

(** Everything succeeds up to the close of the data socket, which fails. *)
Definition close_data_answers : list Z :=
  [0; 0; 3; 4; 0; 0; 17; 5; 0; 0; 17; 5; 0; 1; 0; 0; 1; 0; -1].

Definition close_data_run : outcome Z :=
  main (boot [] "a1B2c3" (answers close_data_answers)).

(** A socket name of 100 characters. *)
Definition long_name : string :=
  let a10 := "aaaaaaaaaa" in
  a10 ++ a10 ++ a10 ++ a10 ++ a10 ++ a10 ++ a10 ++ a10 ++ a10 ++ a10.

(** ** Vocabulary of the further properties *)

(** The world [w] with one more heap block, holding [s]. *)
Definition with_block (s : string) (w : world) : world :=
  set_heap (w_heap w ++ [Some s]) w.

Definition is_err (e : event) : bool :=
  match e with EErr _ _ => true | _ => false end.

Definition is_close (e : event) : bool :=
  match e with EClose _ _ => true | _ => false end.

Definition is_free (e : event) : bool :=
  match e with EFree _ => true | _ => false end.

(** The last two calls of a trace. *)
Fixpoint last_two (tr : list event) : option (event * event) :=
  match tr with
  | a :: ((b :: t) as tr') =>
      match t with
      | [] => Some (a, b)
      | _ => last_two tr'
      end
  | _ => None
  end.

(** The diagnostic that names the call [e]: the name of its function and,
    for [sendmsg], the connection it was made on and the descriptors its
    control messages carry.  The calls to [close] are left out: their
    text depends on which descriptor is closed. *)
Definition diagnostic_for (e : event) : option string :=
  match e with
  | EAsprintf _ _ _ => Some "asprintf"
  | EMkdtemp _ _ => Some "mkdtemp"
  | EOpen _ _ _ => Some "open"
  | ESocket _ _ _ _ => Some "socket"
  | EBind _ _ _ _ => Some "bind"
  | EListen _ _ _ => Some "listen"
  | EAccept4 _ _ _ => Some "accept4(passsock)"
  | EUnlinkat _ _ _ _ => Some "unlinkat"
  | ESendmsg fd msg _ _ =>
      Some ("sendmsg(connsock=" ++ fmt_d fd ++ ", {msg={datasock="
            ++ String.concat "," (map fmt_d (passed_fds msg)) ++ "}})")
  | _ => None
  end.

(** A call without the result of the write, if it is one. *)
Definition forget_write_result (e : event) : event :=
  match e with
  | EDprintf fd text _ => EDprintf fd text 0
  | _ => e
  end.

(** A write goes to descriptor 1 and nothing has been closed before it. *)
Definition writes_before_close (pe : list event * event) : Prop :=
  match snd pe with
  | EDprintf fd _ _ =>
      fd = 1 /\ forallb (fun e => negb (is_close e)) (fst pe) = true
  | _ => True
  end.

(** The heap block is freed once, after [asprintf] returned it, and the
    calls that read the directory string come before the [free]. *)
Definition heap_discipline (pe : list event * event) : Prop :=
  match snd pe with
  | EFree p =>
      (exists text n, In (EAsprintf text n p) (fst pe) /\ 0 <= n) /\
      forallb (fun e => negb (is_free e)) (fst pe) = true
  | EMkdtemp _ _ | EOpen _ _ _ | EDprintf _ _ _ =>
      forallb (fun e => negb (is_free e)) (fst pe) = true
  | _ => True
  end.

(** What the calls of [main] say about the file system: the directory
    that is created and opened is [dir], and the name removed is [pass]. *)
Definition fs_shape (dir : string) (e : event) : Prop :=
  match e with
  | EMkdtemp _ (Some d) => d = dir
  | EOpen path _ _ => path = dir
  | EUnlinkat _ name _ _ => name = "pass"
  | _ => True
  end.

(** What the calls of [main] ask about inheritance across [exec]. *)
Definition flags_shape (e : event) : Prop :=
  match e with
  | EOpen _ flags _ => has_flag flags O_CLOEXEC = true
  | ESocket _ type _ _ => has_flag type SOCK_CLOEXEC = false
  | EAccept4 _ flags _ => has_flag flags SOCK_CLOEXEC = true
  | _ => True
  end.

(** The close-on-exec flag that goes with the kind of an open file: set
    for a directory and for a connection, clear for the inherited streams
    and for a socket that is not a connection. *)
Definition inherit_ok (f : file) : Prop :=
  match f_kind f with
  | KDir _ => f_cloexec f = true
  | KSock Connected => f_cloexec f = true
  | KSock _ => f_cloexec f = false
  | KStdout | KStream => f_cloexec f = false
  end.

(** No [/] in a string. *)
Fixpoint slash_free (s : string) : bool :=
  match s with
  | EmptyString => true
  | String c s' => negb (Ascii.eqb c "/") && slash_free s'
  end.

(** The diagnostics of a trace, in order. *)
Fixpoint diagnostics (tr : list event) : list string :=
  match tr with
  | [] => []
  | EErr _ msg :: tr' => msg :: diagnostics tr'
  | _ :: tr' => diagnostics tr'
  end.

(** The calls that [main] does not check are the writes and the [free],
    which cannot fail. *)
Definition labelled (em : event * option string) : Prop :=
  is_err (fst em) = false /\
  (snd em = None -> failed (fst em) = true -> is_dprintf (fst em) = true) /\
  (snd em <> None -> is_dprintf (fst em) = false).


(** Did [main] return, rather than exit through [err]? *)
Definition returned (o : outcome Z) : bool :=
  match o with Ret _ _ => true | Exit _ _ => false end.

(** What a run leaves of the heap, whether it called [free], its exit
    status, and whether [main] returned. *)
Definition heap_view (o : outcome Z) : list (option string) * bool * Z * bool :=
  (w_heap (final o), existsb is_free (w_trace (final o)), exit_status o, returned o).

(** An open directory is [dir]. *)
Definition is_dir_of (dir : string) (f : file) : Prop :=
  match f_kind f with
  | KDir d => d = dir
  | _ => True
  end.

(** Every file of a descriptor table satisfies [P]. *)
Definition every_file (P : file -> Prop) (t : list (Z * file)) : Prop :=
  Forall (fun fdf => P (snd fdf)) t.

(** What [main] asks of the kernel, call by call. *)
Definition call_shape (dir : string) (e : event) : Prop :=
  fs_shape dir e /\ flags_shape e.

(** A connection is accepted right after standard output was closed, and
    after the three writes. *)
Definition begins_handoff (pe : list event * event) : Prop :=
  match snd pe with
  | EAccept4 _ _ _ =>
      (exists r, last (fst pe) (EFree O) = EClose 1 r /\ 0 <= r) /\
      List.length (filter is_dprintf (fst pe)) = 3%nat
  | _ => True
  end.

(** * Facts about the conversions *)

Section Strings.

Lemma length_append (s t : string) :
  String.length (s ++ t) = (String.length s + String.length t)%nat.
Proof. induction s as [|c s IH]; simpl; [reflexivity | now rewrite IH]. Qed.

Lemma append_assoc (s t u : string) : (s ++ t) ++ u = s ++ (t ++ u).
Proof. induction s as [|c s IH]; simpl; [reflexivity | now rewrite IH]. Qed.

Lemma substring_all (s : string) (n : nat) :
  (String.length s <= n)%nat -> substring 0 n s = s.
Proof.
  revert n; induction s as [|c s IH]; intros [|n] H; simpl in *;
    try reflexivity; try lia.
  rewrite IH by lia. reflexivity.
Qed.

Lemma substring_length_le (s : string) (n : nat) :
  (String.length (substring 0 n s) <= n)%nat.
Proof.
  revert n; induction s as [|c s IH]; intros [|n]; simpl; try lia.
  specialize (IH n). lia.
Qed.

Lemma substring_append_l (s t : string) :
  substring 0 (String.length s) (s ++ t) = s.
Proof.
  induction s as [|c s IH]; simpl.
  - destruct t; reflexivity.
  - now rewrite IH.
Qed.

Lemma substring_append_r (s t : string) :
  substring (String.length s) (String.length t) (s ++ t) = t.
Proof.
  induction s as [|c s IH]; simpl.
  - apply substring_all. lia.
  - exact IH.
Qed.

End Strings.

Section Decimal.

Import Decimal.

Lemma double_digits (d : uint) :
  (nb_digits (Little.double d) <= S (nb_digits d))%nat /\
  (nb_digits (Little.succ_double d) <= S (nb_digits d))%nat.
Proof. induction d; simpl; lia. Qed.

Lemma to_little_uint_digits (p : positive) :
  (nb_digits (Pos.to_little_uint p) <= Pos.size_nat p)%nat.
Proof.
  induction p as [p IH|p IH|]; simpl.
  - pose proof (proj2 (double_digits (Pos.to_little_uint p))). lia.
  - pose proof (proj1 (double_digits (Pos.to_little_uint p))). lia.
  - lia.
Qed.

Lemma string_of_uint_length (u : uint) :
  String.length (NilEmpty.string_of_uint u) = nb_digits u.
Proof. induction u; simpl; congruence. Qed.

Lemma nilzero_length (u : uint) :
  (String.length (NilZero.string_of_uint u) <= S (nb_digits u))%nat.
Proof.
  destruct u; simpl; try lia; rewrite string_of_uint_length; lia.
Qed.

Lemma size_nat_bound (n : nat) (p : positive) :
  Z.pos p < 2 ^ Z.of_nat n -> (Pos.size_nat p <= n)%nat.
Proof.
  revert p; induction n as [|n IH]; intros p H.
  - simpl in H. lia.
  - rewrite Nat2Z.inj_succ, Z.pow_succ_r in H by lia.
    destruct p as [p|p|]; simpl.
    + rewrite Pos2Z.inj_xI in H. specialize (IH p). lia.
    + rewrite Pos2Z.inj_xO in H. specialize (IH p). lia.
    + lia.
Qed.

Lemma pos_digits (p : positive) :
  Z.pos p < 2 ^ 32 -> (nb_digits (Pos.to_uint p) <= 32)%nat.
Proof.
  intros H. unfold Pos.to_uint.
  rewrite DecimalFacts.nb_digits_rev.
  pose proof (to_little_uint_digits p) as Hd.
  pose proof (size_nat_bound 32 p H) as Hs.
  eapply Nat.le_trans; eassumption.
Qed.

(** An [int] prints in few characters (the bound is loose: one per bit). *)
Lemma fmt_d_length (z : Z) :
  (String.length (fmt_d (to_int z)) <= 35)%nat.
Proof.
  unfold fmt_d.
  assert (Hr : - 2 ^ 32 < to_int z < 2 ^ 32).
  { unfold to_int.
    pose proof (Z.mod_pos_bound (z + 2147483648) 4294967296). lia. }
  destruct (to_int z) as [|p|p].
  - simpl. lia.
  - assert (Hz : Z.pos p < 2 ^ 32) by lia.
    cbn [Z.to_int NilZero.string_of_int].
    pose proof (nilzero_length (Pos.to_uint p)) as Hn.
    pose proof (pos_digits p Hz) as Hd. clear Hz Hr. lia.
  - assert (Hz : Z.pos p < 2 ^ 32) by lia.
    cbn [Z.to_int NilZero.string_of_int].
    pose proof (nilzero_length (Pos.to_uint p)) as Hn.
    pose proof (pos_digits p Hz) as Hd. clear Hz Hr.
    change (String.length (String "-" (NilZero.string_of_uint (Pos.to_uint p))))
      with (S (String.length (NilZero.string_of_uint (Pos.to_uint p)))).
    lia.
Qed.

End Decimal.

(** * Facts about the library calls *)

Lemma ends_with_X6_template (t : string) : ends_with_X6 (t ++ "/XXXXXX") = true.
Proof.
  unfold ends_with_X6.
  change (t ++ "/XXXXXX") with (t ++ ("/" ++ "XXXXXX")).
  rewrite <- append_assoc, (length_append (t ++ "/")).
  change (String.length "XXXXXX") with 6%nat.
  apply andb_true_iff; split.
  - apply Nat.leb_le. lia.
  - replace (String.length (t ++ "/") + 6 - 6)%nat with (String.length (t ++ "/")) by lia.
    change 6%nat with (String.length "XXXXXX") at 1.
    rewrite substring_append_r. reflexivity.
Qed.

Lemma template_dir (t : string) :
  substring 0 (String.length (t ++ "/XXXXXX") - 6) (t ++ "/XXXXXX") = t ++ "/".
Proof.
  change (t ++ "/XXXXXX") with (t ++ ("/" ++ "XXXXXX")).
  rewrite <- append_assoc, (length_append (t ++ "/")).
  change (String.length "XXXXXX") with 6%nat.
  replace (String.length (t ++ "/") + 6 - 6)%nat with (String.length (t ++ "/")) by lia.
  apply substring_append_l.
Qed.

Lemma of_nat_ltb_0 (n : nat) : (Z.of_nat n <? 0) = false.
Proof. apply Z.ltb_ge. lia. Qed.

(** What [snprintf] does with a text that fits. *)
Lemma snprintf_fits (size : Z) (s : string) :
  Z.of_nat (String.length s) < size -> size <= INT_MAX ->
  snprintf size s = (s, Z.of_nat (String.length s)).
Proof.
  intros Hfit Hsize. unfold snprintf.
  rewrite substring_all by lia.
  destruct (Z.ltb_spec INT_MAX (Z.of_nat (String.length s))); [lia | reflexivity].
Qed.

Lemma procfd_length (z : Z) (name : string) :
  (String.length (procfd (to_int z) name) <= 50 + String.length name)%nat.
Proof.
  unfold procfd. rewrite !length_append.
  pose proof (fmt_d_length z).
  change (String.length "/proc/self/fd/") with 14%nat.
  change (String.length "/") with 1%nat. lia.
Qed.

Lemma snprintf_procfd (z : Z) (name : string) :
  (String.length name <= 57)%nat ->
  snprintf sizeof_sun_path (procfd (to_int z) name) =
  (procfd (to_int z) name, Z.of_nat (String.length (procfd (to_int z) name))).
Proof.
  intros H. apply snprintf_fits.
  - pose proof (procfd_length z name). unfold sizeof_sun_path. lia.
  - unfold sizeof_sun_path, INT_MAX. lia.
Qed.

(** * The runs of the program *)

Ltac run_prog :=
  cbv beta iota zeta delta
    [main make_private_dir listen_unix_socket bind ret log next err getenv
     deref store malloc_string asprintf free mkdtemp update
     open socket bind_ listen dprintf close accept4 unlinkat sendmsg
     set_trace set_calls set_heap boot final exit_status observe
     w_environ w_random w_oracle w_calls w_heap w_trace
     app nth_error List.length fst snd orb negb].

(** One step of symbolic execution: decide the next test on a result. *)
Ltac run_known :=
  run_prog;
  repeat
    (first
       [ rewrite of_nat_ltb_0
       | match goal with
         | H : ?c = _ |- context [if ?c then _ else _] => rewrite H
         | |- context [snprintf _ ("/proc/self/fd/" ++ fmt_d ?z ++ "/" ++ ?n)] =>
             change ("/proc/self/fd/" ++ fmt_d z ++ "/" ++ n) with (procfd z n);
             rewrite snprintf_procfd by (simpl; lia)
         end ];
     run_prog).

Ltac run_case n :=
  let E := fresh "E" in
  destruct (to_int (_ n) <? 0) eqn:E; run_known.

Lemma make_private_dir_boot env rnd o :
  make_private_dir (boot env rnd o) =
  let tpl := tmpdir_of env ++ "/XXXXXX" in
  let mk := fun n h t =>
    {| w_environ := env; w_random := rnd; w_oracle := o;
       w_calls := n; w_heap := h; w_trace := t |} in
  if to_int (o 0%nat) <? 0
  then Exit 1 (mk 1%nat [] [EAsprintf tpl (to_int (o 0%nat)) O; EErr 1 "asprintf"])
  else if to_int (o 1%nat) <? 0
  then Exit 1 (mk 2%nat [Some (private_dir env rnd)]
                  [EAsprintf tpl (Z.of_nat (String.length tpl)) O;
                   EMkdtemp tpl None; EErr 1 "mkdtemp"])
  else Ret O (mk 2%nat [Some (private_dir env rnd)]
                [EAsprintf tpl (Z.of_nat (String.length tpl)) O;
                 EMkdtemp tpl (Some (private_dir env rnd))]).
Proof.
  assert (Hdir : forall t, substring 0 (String.length (t ++ "/XXXXXX") - 6) (t ++ "/XXXXXX")
                           ++ rnd = t ++ "/" ++ rnd).
  { intros t. rewrite template_dir, append_assoc. reflexivity. }
  unfold private_dir, tmpdir_of.
  destruct (lookup_env "XDG_RUNTIME_DIR" env) as [x|] eqn:Hx;
    [| destruct (lookup_env "TMPDIR" env) as [t|] eqn:Ht];
    run_prog; rewrite ?Hx, ?Ht; run_prog;
    (run_case 0%nat; [reflexivity|]);
    rewrite ends_with_X6_template;
    run_case 1%nat; rewrite Hdir; reflexivity.
Qed.

(** Every run of [main] makes the calls of [attempt], up to the first
    checked call that fails. *)
Lemma main_play env rnd o :
  observe (main (boot env rnd o)) = play (attempt env rnd o).
Proof.
  unfold main. unfold bind at 1. rewrite make_private_dir_boot.
  cbv beta iota zeta delta [attempt play failed].
  run_case 0%nat; [reflexivity|].
  run_case 1%nat; [reflexivity|].
  run_case 2%nat; [reflexivity|].
  run_case 3%nat; [reflexivity|].
  run_case 4%nat; [reflexivity|].
  run_case 5%nat; [reflexivity|].
  run_case 7%nat; [reflexivity|].
  run_case 8%nat; [reflexivity|].
  run_case 9%nat; [reflexivity|].
  run_case 12%nat; [reflexivity|].
  run_case 13%nat; [reflexivity|].
  run_case 14%nat; [reflexivity|].
  run_case 15%nat; [reflexivity|].
  run_case 16%nat; [reflexivity|].
  run_case 17%nat; [reflexivity|].
  run_case 18%nat; [reflexivity|].
  run_case 19%nat; [reflexivity|].
  reflexivity.
Qed.

Lemma main_trace env rnd o :
  w_trace (final (main (boot env rnd o))) = fst (play (attempt env rnd o)).
Proof. rewrite <- main_play. reflexivity. Qed.

Lemma main_status env rnd o :
  exit_status (main (boot env rnd o)) = snd (play (attempt env rnd o)).
Proof. rewrite <- main_play. reflexivity. Qed.

(** Case analysis on the results of the checked calls, in program order. *)
Ltac case_result n :=
  let E := fresh "E" in
  destruct (to_int (_ n) <? 0) eqn:E;
  cbv beta iota;
  rewrite ?of_nat_ltb_0;
  repeat match goal with
         | H : ?c = _ |- context [?c] => rewrite H
         end;
  cbv beta iota.

Ltac case_results tac :=
  case_result 0%nat; [tac|];
  case_result 1%nat; [tac|];
  case_result 2%nat; [tac|];
  case_result 3%nat; [tac|];
  case_result 4%nat; [tac|];
  case_result 5%nat; [tac|];
  case_result 7%nat; [tac|];
  case_result 8%nat; [tac|];
  case_result 9%nat; [tac|];
  case_result 12%nat; [tac|];
  case_result 13%nat; [tac|];
  case_result 14%nat; [tac|];
  case_result 15%nat; [tac|];
  case_result 16%nat; [tac|];
  case_result 17%nat; [tac|];
  case_result 18%nat; [tac|];
  case_result 19%nat; [tac|].

Ltac unfold_play :=
  cbv beta iota zeta delta
    [attempt play failed all_succeed checked_calls success_calls
     forallb negb andb fst snd].

(** The process exits with status 0 exactly when every checked call
    succeeds, and with status 1 otherwise. *)
Lemma main_exit env rnd o :
  exit_status (main (boot env rnd o)) = if all_succeed o then 0 else 1.
Proof.
  rewrite main_status. unfold_play.
  case_results reflexivity. reflexivity.
Qed.

Lemma main_exit_0 env rnd o :
  exit_status (main (boot env rnd o)) = 0 <-> all_succeed o = true.
Proof.
  rewrite main_exit. destruct (all_succeed o); split; intros H;
    try reflexivity; discriminate.
Qed.

Lemma all_succeed_results o :
  all_succeed o = true ->
  forall n, In n checked_calls -> 0 <= to_int (o n).
Proof.
  unfold all_succeed. rewrite forallb_forall. intros H n Hn.
  specialize (H n Hn). apply negb_true_iff, Z.ltb_ge in H. exact H.
Qed.

(** * Facts about the kernel model *)

Lemma strip_prefix_app (p s : string) : strip_prefix p (p ++ s) = Some s.
Proof.
  induction p as [|a p IH]; simpl.
  - reflexivity.
  - rewrite Ascii.eqb_refl. exact IH.
Qed.

Lemma strip_procfd (fd : Z) (name : string) :
  strip_prefix ("/proc/self/fd/" ++ fmt_d fd ++ "/") (procfd fd name) = Some name.
Proof.
  unfold procfd.
  replace ("/proc/self/fd/" ++ fmt_d fd ++ "/" ++ name)
    with (("/proc/self/fd/" ++ fmt_d fd ++ "/") ++ name).
  - apply strip_prefix_app.
  - rewrite !append_assoc. reflexivity.
Qed.

Lemma eqb_append_l (s a b : string) : String.eqb (s ++ a) (s ++ b) = String.eqb a b.
Proof.
  induction s as [|c s IH]; simpl.
  - reflexivity.
  - rewrite Ascii.eqb_refl. exact IH.
Qed.

Lemma eqb_append_self (s t : string) (c : ascii) :
  String.eqb s (s ++ String c t) = false.
Proof.
  induction s as [|d s IH]; simpl.
  - reflexivity.
  - rewrite Ascii.eqb_refl. exact IH.
Qed.

Lemma replay_app (k : kernel) (t1 t2 : list event) :
  replay k (t1 ++ t2) = replay (replay k t1) t2.
Proof. apply fold_left_app. Qed.

Lemma step_sane_mono (k : kernel) (e : event) :
  k_sane (step k e) = true -> k_sane k = true.
Proof.
  destruct e; simpl; try (intros H; exact H);
    destruct (ret0 <? 0); try (intros H; exact H);
    intros H; apply andb_true_iff in H; apply H.
Qed.

Lemma replay_sane_mono (t : list event) (k : kernel) :
  k_sane (replay k t) = true -> k_sane k = true.
Proof.
  revert k; induction t as [|e t IH]; intros k H.
  - exact H.
  - apply step_sane_mono with e. apply IH. exact H.
Qed.

Lemma replay_sane_prefix (k : kernel) (t1 t2 : list event) :
  k_sane (replay k (t1 ++ t2)) = true -> k_sane (replay k t1) = true.
Proof. rewrite replay_app. apply replay_sane_mono. Qed.

Lemma fd_open_false (fd : Z) (t : list (Z * file)) :
  fd_open fd t = false -> ~ In fd (map fst t).
Proof.
  unfold fd_open. induction t as [|[fd' f] t IH]; simpl.
  - intros _ [].
  - destruct (Z.eqb_spec fd' fd) as [->|Hne].
    + discriminate.
    + intros H [Heq|Hin]; [contradiction | exact (IH H Hin)].
Qed.

Lemma notin_eqb (a : Z) (l : list Z) :
  ~ In a l -> Forall (fun k => (k =? a) = false /\ (a =? k) = false) l.
Proof.
  intros H. apply Forall_forall. intros k Hk.
  split; apply Z.eqb_neq; intros ->; contradiction.
Qed.

Lemma replay_cons (k : kernel) (e : event) (t : list event) :
  replay k (e :: t) = replay (step k e) t.
Proof. reflexivity. Qed.

Lemma passed_fds_handoff (datasock : Z) : passed_fds (handoff_msg datasock) = [datasock].
Proof. reflexivity. Qed.

Lemma all_succeed_tests (o : nat -> Z) :
  all_succeed o = true ->
  Forall (fun n => (to_int (o n) <? 0) = false) checked_calls.
Proof.
  unfold all_succeed. rewrite forallb_forall. intros H.
  apply Forall_forall. intros n Hn. apply negb_true_iff. exact (H n Hn).
Qed.

(** The tests that a successful run passed, as rewriting hypotheses. *)
Ltac split_forall H :=
  repeat match type of H with
         | Forall _ (_ :: _) =>
             let E := fresh "E" in
             apply Forall_cons_iff in H; destruct H as [E H]; cbv beta in E
         end;
  clear H.

Ltac get_tests Hs :=
  let HF := fresh "HF" in
  pose proof (all_succeed_tests _ Hs) as HF;
  unfold checked_calls in HF; split_forall HF.

Ltac get_distinct H :=
  let HF := fresh "HF" in
  pose proof (notin_eqb _ _ H) as HF; split_forall HF;
  repeat match goal with
         | E : _ /\ _ |- _ => destruct E
         end.

Lemma flags_of_calls :
  has_flag SOCK_STREAM SOCK_CLOEXEC = false /\
  has_flag SOCK_CLOEXEC SOCK_CLOEXEC = true /\
  has_flag (Z.lor O_DIRECTORY O_CLOEXEC) O_CLOEXEC = true.
Proof. repeat split. Qed.

Ltac get_all_distinct :=
  repeat match goal with
         | H : ~ In _ (_ :: _) |- _ => get_distinct H; clear H
         end.

Ltac use_tests :=
  repeat match goal with
         | H : (?a <? ?b) = _ |- context [?a <? ?b] => rewrite H
         | |- context [has_flag SOCK_STREAM SOCK_CLOEXEC] =>
             rewrite (proj1 flags_of_calls)
         | |- context [has_flag SOCK_CLOEXEC SOCK_CLOEXEC] =>
             rewrite (proj1 (proj2 flags_of_calls))
         | |- context [has_flag (Z.lor O_DIRECTORY O_CLOEXEC) O_CLOEXEC] =>
             rewrite (proj2 (proj2 flags_of_calls))
         | H : (?a =? ?b) = false |- context [?a =? ?b] => rewrite H
         | |- context [?a =? ?a] => rewrite (Z.eqb_refl a)
         | |- context [0 =? 1] => change (0 =? 1) with false
         | |- context [2 =? 1] => change (2 =? 1) with false
         | |- context [strip_prefix _ (procfd _ _)] => rewrite strip_procfd
         | |- context [passed_fds (handoff_msg _)] => rewrite passed_fds_handoff
         end.

Ltac use_tests_in K :=
  repeat match type of K with
         | context [?a <? ?b] =>
             match goal with H : (a <? b) = _ |- _ => rewrite H in K end
         | context [has_flag SOCK_STREAM SOCK_CLOEXEC] =>
             rewrite (proj1 flags_of_calls) in K
         | context [has_flag SOCK_CLOEXEC SOCK_CLOEXEC] =>
             rewrite (proj1 (proj2 flags_of_calls)) in K
         | context [has_flag (Z.lor O_DIRECTORY O_CLOEXEC) O_CLOEXEC] =>
             rewrite (proj2 (proj2 flags_of_calls)) in K
         | context [?a =? ?b] =>
             match goal with H : (a =? b) = false |- _ => rewrite H in K end
         | context [?a =? ?a] => rewrite (Z.eqb_refl a) in K
         | context [0 =? 1] => change (0 =? 1) with false in K
         | context [2 =? 1] => change (2 =? 1) with false in K
         | context [strip_prefix _ (procfd _ _)] => rewrite strip_procfd in K
         | context [passed_fds (handoff_msg _)] => rewrite passed_fds_handoff in K
         end.

Ltac keval :=
  cbv beta iota delta [step kernel0 resolve k_fds k_fs k_out k_err k_passed k_sane];
  cbn [step step_fds step_fs step_out step_err step_passed
       step_sane kernel0 k_fds k_fs k_out k_err k_passed k_sane
       fd_lookup fd_update fd_remove resolve resolve_in files_of
       f_kind f_cloexec sock_file dir_file unix_addr sun_path sun_family
       app].

Ltac keval_in K :=
  cbv beta iota delta [step kernel0 resolve k_fds k_fs k_out k_err k_passed k_sane] in K;
  cbn [step step_fds step_fs step_out step_err step_passed
       step_sane kernel0 k_fds k_fs k_out k_err k_passed k_sane
       fd_lookup fd_update fd_remove resolve resolve_in files_of
       f_kind f_cloexec sock_file dir_file unix_addr sun_path sun_family
       app] in K.

(** One call of a replay. *)
Ltac kstep := rewrite replay_cons; keval; repeat (progress use_tests; keval).
Ltac kstep_in K :=
  rewrite replay_cons in K; keval_in K; repeat (progress use_tests_in K; keval_in K).

Ltac split_sane H :=
  repeat match type of H with
         | (_ && _) = true =>
             let H1 := fresh "Hs" in
             let H2 := fresh "Hs" in
             apply andb_true_iff in H; destruct H as [H1 H2];
             apply negb_true_iff, fd_open_false in H2; cbn [map fst] in H2;
             rename H1 into H
         end.

(** In a successful run on a sane kernel the descriptors are distinct. *)
Lemma sane_fds env rnd o fs0 :
  all_succeed o = true ->
  k_sane (replay (kernel0 fs0) (success_calls env rnd o)) = true ->
  ~ In (to_int (o 2%nat)) [0; 1; 2] /\
  ~ In (to_int (o 3%nat)) [to_int (o 2%nat); 0; 1; 2] /\
  ~ In (to_int (o 7%nat)) [to_int (o 3%nat); to_int (o 2%nat); 0; 1; 2] /\
  ~ In (to_int (o 13%nat))
       [to_int (o 7%nat); to_int (o 3%nat); to_int (o 2%nat); 0; 2].
Proof.
  intros Hs Hsane.
  get_tests Hs.
  unfold success_calls in Hsane.
  cbv zeta in Hsane.
  match type of Hsane with
  | k_sane (replay ?k ?t) = true =>
      pose proof (replay_sane_prefix k (firstn 12 t) (skipn 12 t) Hsane) as H12;
      pose proof (replay_sane_prefix k (firstn 14 t) (skipn 14 t) Hsane) as H14
  end.
  clear Hsane.
  cbn [firstn skipn] in H12, H14.
  do 12 kstep_in H12.
  cbn [replay fold_left] in H12. cbv beta iota delta [k_sane] in H12.
  split_sane H12. clear H12.
  repeat split; try assumption.
  get_all_distinct.
  do 14 kstep_in H14.
  cbn [replay fold_left] in H14. cbv beta iota delta [k_sane] in H14.
  split_sane H14.
  assumption.
Qed.

Lemma remove_pass_entries (dir : string) (fs : list string) :
  remove_path (dir ++ "/pass") ((dir ++ "/pass") :: (dir ++ "/data") :: dir :: fs)
  = (dir ++ "/data") :: dir :: remove_path (dir ++ "/pass") fs.
Proof.
  cbn [remove_path].
  rewrite String.eqb_refl, eqb_append_l, eqb_append_self.
  reflexivity.
Qed.

(** The system after a successful run on a sane kernel. *)
Lemma success_kernel env rnd o fs0 :
  all_succeed o = true ->
  k_sane (replay (kernel0 fs0) (success_calls env rnd o)) = true ->
  let K := replay (kernel0 fs0) (success_calls env rnd o) in
  let dir := private_dir env rnd in
  k_fds K = [(0, {| f_kind := KStream; f_cloexec := false |});
             (2, {| f_kind := KStream; f_cloexec := false |})] /\
  k_fs K = (dir ++ "/data") :: dir :: remove_path (dir ++ "/pass") fs0 /\
  k_out K = (delivered (to_int (o 6%nat)) (dir ++ "/data" ++ nl)
             ++ delivered (to_int (o 10%nat)) (dir ++ "/pass" ++ nl)
             ++ delivered (to_int (o 11%nat)) ("done" ++ nl))%list /\
  k_err K = [] /\
  k_passed K = [sock_file (Listening (dir ++ "/data") 10 0) false].
Proof.
  intros Hs Hsane.
  destruct (sane_fds env rnd o fs0 Hs Hsane) as (D1 & D2 & D3 & D4).
  clear Hsane. get_tests Hs. get_all_distinct.
  unfold success_calls, delivered. cbv zeta.
  destruct (to_int (o 6%nat) <? 0) eqn:W6;
    destruct (to_int (o 10%nat) <? 0) eqn:W10;
    destruct (to_int (o 11%nat) <? 0) eqn:W11;
    do 21 kstep;
    cbn [replay fold_left]; cbv beta iota delta [k_fds k_fs k_out k_err k_passed];
    change (private_dir env rnd ++ "/" ++ "pass") with (private_dir env rnd ++ "/pass");
    change (private_dir env rnd ++ "/" ++ "data") with (private_dir env rnd ++ "/data");
    rewrite remove_pass_entries;
    repeat split.
Qed.

(** * Lemmas and tactics for the properties *)

Lemma main_success_world env rnd o :
  all_succeed o = true ->
  main (boot env rnd o) =
  Ret 0 {| w_environ := env; w_random := rnd; w_oracle := o; w_calls := 20;
           w_heap := [None]; w_trace := success_calls env rnd o |}.
Proof.
  intros Hs. get_tests Hs.
  unfold main. unfold bind at 1. rewrite make_private_dir_boot.
  cbv zeta. run_known. reflexivity.
Qed.

Lemma accept4_conn (t : list (Z * file)) (fd flags r : Z) :
  0 <= r ->
  fd_lookup r (step_fds t (EAccept4 fd flags r))
  = Some (sock_file Connected (has_flag flags SOCK_CLOEXEC)).
Proof.
  intros Hr. cbn [step_fds].
  destruct (Z.ltb_spec r 0) as [|_]; [lia|].
  destruct (fd_lookup fd t) as [[[| | |[]] c]|]; cbn [fd_lookup];
    rewrite Z.eqb_refl; reflexivity.
Qed.

Ltac result_ok Hs :=
  apply (all_succeed_results _ Hs); unfold checked_calls; cbn [In]; tauto.

Ltac solve_listening :=
  cbv beta iota delta [both_listening listening_at k_fds];
  cbn [existsb f_kind sock_file dir_file];
  change ("/" ++ "pass") with "/pass";
  change ("/" ++ "data") with "/data";
  rewrite ?String.eqb_refl, ?eqb_append_l;
  reflexivity.

Lemma pass_line_not_data (dir : string) : dir ++ "/pass" ++ nl <> data_line dir.
Proof.
  unfold data_line. intros H.
  apply String.eqb_eq in H. rewrite eqb_append_l in H. discriminate H.
Qed.

Lemma done_line_not_data (dir : string) : "done" ++ nl <> data_line dir.
Proof.
  unfold data_line. intros H.
  apply (f_equal String.length) in H. rewrite !length_append in H.
  cbn in H. lia.
Qed.

Ltac solve_one_socket :=
  cbv beta iota delta [sockets k_fds];
  cbn [filter snd f_kind sock_file dir_file List.length];
  reflexivity.

Ltac solve_ready :=
  cbv beta iota delta [ready accepted_when_listening fst snd];
  first
    [ exact I
    | split; [solve_listening|];
      split;
      [ first [ intros _; split; [solve_one_socket | solve_listening]
              | let Heq := fresh "Heq" in
                intros Heq; exfalso;
                first [ exact (pass_line_not_data _ Heq)
                      | exact (done_line_not_data _ Heq) ] ]
      | first [ intros _; solve_listening
              | let Hne := fresh "Hne" in
                intros Hne; exfalso; apply Hne; reflexivity ] ]
    | solve_listening ].

Lemma history_cons (k : kernel) (e : event) (t : list event) :
  history k (e :: t) = (k, e) :: history (step k e) t.
Proof. reflexivity. Qed.

Ltac hstep :=
  rewrite history_cons; constructor;
  [ solve_ready | keval; repeat (progress use_tests; keval) ].

Lemma history_app (k : kernel) (t1 t2 : list event) :
  history k (t1 ++ t2) = (history k t1 ++ history (replay k t1) t2)%list.
Proof.
  revert k; induction t1 as [|e t1 IH]; intros k.
  - reflexivity.
  - cbn [app history]. rewrite IH. reflexivity.
Qed.

(** Calls that write nothing are ready in any state. *)
Lemma ready_no_write (dir : string) (t : list event) :
  forallb (fun e => negb (is_dprintf e)) t = true ->
  forall k, Forall (ready dir) (history k t).
Proof.
  induction t as [|e t IH]; intros H k; cbn [history].
  - constructor.
  - cbn [forallb] in H. apply andb_true_iff in H. destruct H as [He Ht].
    constructor; [|apply IH; exact Ht].
    destruct e; try exact I. discriminate He.
Qed.

Ltac use_results :=
  repeat match goal with
         | H : (?a <? ?b) = _ |- context [?a <? ?b] => rewrite H
         end.

Ltac in_list := cbn [In]; repeat (first [left; reflexivity | right]).

Ltac solve_writes :=
  let Hin := fresh "Hin" in
  intros fd text r Hin; cbn [In] in Hin;
  repeat (destruct Hin as [Hin|Hin];
          [first [discriminate Hin
                 | injection Hin as <- <- <-; split; reflexivity]|]);
  contradiction.

Ltac solve_binding_failure :=
  cbn [existsb binding_failed]; use_results; cbn [orb];
  let Hf := fresh "Hf" in
  intros Hf;
  first
    [ discriminate Hf
    | split; [reflexivity|];
      split; [solve_writes|];
      cbn [filter is_socket is_dprintf List.length];
      split; [let Hn := fresh "Hn" in
              intros Hn; first [discriminate Hn | reflexivity]|];
      split; [let Hn := fresh "Hn" in
              intros Hn; first [discriminate Hn | reflexivity]|];
      first [left; reflexivity | right; reflexivity] ].

Ltac solve_forall :=
  repeat (apply Forall_cons; [cbv beta iota delta [opens_handle]; repeat split|]);
  apply Forall_nil.

Lemma in_remove_path (p q : string) (fs : list string) :
  In p (remove_path q fs) <-> In p fs /\ p <> q.
Proof.
  induction fs as [|x fs IH]; cbn [remove_path In].
  - tauto.
  - destruct (String.eqb_spec x q) as [->|Hne]; cbn [In]; rewrite IH.
    + split.
      * intros [Hin Hp]. tauto.
      * intros [[Hx|Hin] Hp]; [congruence | tauto].
    + split.
      * intros [Hx|[Hin Hp]]; [subst x | ]; tauto.
      * tauto.
Qed.

Lemma data_is_not_pass (dir : string) : dir ++ "/data" <> dir ++ "/pass".
Proof.
  intros H. apply String.eqb_eq in H. rewrite eqb_append_l in H. discriminate H.
Qed.

Lemma dir_is_not_pass (dir : string) : dir <> dir ++ "/pass".
Proof.
  intros H. apply String.eqb_eq in H. rewrite eqb_append_self in H. discriminate H.
Qed.

Ltac solve_removals :=
  repeat (apply Forall_cons;
          [ cbv beta iota delta [removes_only_pass fst snd];
            first
              [ exact I
              | split; [reflexivity|];
                split; [reflexivity|];
                split; [in_list|];
                do 2 eexists; split; [in_list | apply Z.ltb_ge; assumption] ]
          | ]);
  apply Forall_nil.

(** Symbolic execution from a world whose trace is not known. *)
Ltac run_open :=
  cbv beta iota zeta delta
    [bind ret log next err
     socket bind_ listen
     set_trace set_calls set_heap
     w_environ w_random w_oracle w_calls w_heap w_trace].

Ltac reassoc := rewrite <- ?app_assoc; reflexivity.

Lemma listen_unix_socket_run dirfd name w :
  listen_unix_socket dirfd name w =
  if INT_MAX <? Z.of_nat (String.length (procfd dirfd name))
  then Exit 1 (advance 0 [EErr 1 "snprintf"] w)
  else bind_and_listen
         (unix_addr (substring 0 (Z.to_nat (sizeof_sun_path - 1)) (procfd dirfd name)))
         (to_int (w_oracle w (w_calls w)))
         (to_int (w_oracle w (S (w_calls w))))
         (to_int (w_oracle w (S (S (w_calls w))))) w.
Proof.
  unfold listen_unix_socket, snprintf, bind_and_listen, advance, unix_addr.
  change ("/proc/self/fd/" ++ fmt_d dirfd ++ "/" ++ name) with (procfd dirfd name).
  destruct (INT_MAX <? Z.of_nat (String.length (procfd dirfd name))) eqn:Hlen.
  - reflexivity.
  - rewrite of_nat_ltb_0.
    destruct w as [env rnd o n h t].
    run_open. cbv beta iota delta [Nat.add].
    destruct (to_int (o n) <? 0); run_open; [reassoc|].
    destruct (to_int (o (S n)) <? 0); run_open; [reassoc|].
    destruct (to_int (o (S (S n))) <? 0); run_open; reassoc.
Qed.

Lemma substring_length (s : string) (n : nat) :
  (n <= String.length s)%nat -> String.length (substring 0 n s) = n.
Proof.
  revert n; induction s as [|c s IH]; intros [|n] H; simpl in *;
    try reflexivity; try lia.
  rewrite IH by lia. reflexivity.
Qed.

Lemma substring_id_iff (s : string) (n : nat) :
  substring 0 n s = s <-> (String.length s <= n)%nat.
Proof.
  split.
  - intros H. rewrite <- H. apply substring_length_le.
  - apply substring_all.
Qed.

Lemma bind_and_listen_ok addr s b l w :
  0 <= s -> 0 <= b -> 0 <= l ->
  bind_and_listen addr s b l w
  = Ret s (advance 3 [ESocket AF_UNIX SOCK_STREAM 0 s;
                      EBind s addr sizeof_sockaddr_un b;
                      EListen s 10 l] w).
Proof.
  intros Hs Hb Hl. unfold bind_and_listen.
  apply Z.ltb_ge in Hs, Hb, Hl. rewrite Hs, Hb, Hl. reflexivity.
Qed.

Lemma bind_and_listen_ret addr s b l w sockfd w' :
  bind_and_listen addr s b l w = Ret sockfd w' ->
  sockfd = s /\ 0 <= s /\ 0 <= b /\ 0 <= l.
Proof.
  unfold bind_and_listen.
  destruct (Z.ltb_spec s 0); [discriminate|].
  destruct (Z.ltb_spec b 0); [discriminate|].
  destruct (Z.ltb_spec l 0); [discriminate|].
  intros H'. injection H' as <- _. auto.
Qed.

Lemma bind_and_listen_exit addr s b l w :
  s < 0 \/ b < 0 \/ l < 0 ->
  exists w', bind_and_listen addr s b l w = Exit 1 w'.
Proof.
  unfold bind_and_listen. intros H.
  destruct (Z.ltb_spec s 0); [eexists; reflexivity|].
  destruct (Z.ltb_spec b 0); [eexists; reflexivity|].
  destruct (Z.ltb_spec l 0); [eexists; reflexivity|].
  lia.
Qed.

(** The socket that the three calls leave in the kernel. *)
Lemma listening_socket k s b l addr :
  0 <= s -> 0 <= b -> 0 <= l ->
  fd_lookup s (k_fds (replay k [ESocket AF_UNIX SOCK_STREAM 0 s;
                                EBind s addr sizeof_sockaddr_un b;
                                EListen s 10 l]))
  = Some (sock_file
            (Listening (resolve ((s, sock_file Unbound false) :: k_fds k) (sun_path addr))
                       10 0) false).
Proof.
  intros Hs Hb Hl. apply Z.ltb_ge in Hs, Hb, Hl.
  cbn [replay fold_left]. cbv beta iota delta [step k_fds].
  cbn [step_fds]. rewrite Hs, Hb, Hl.
  change (has_flag SOCK_STREAM SOCK_CLOEXEC) with false.
  repeat (cbn [fd_lookup fd_update sock_file]; rewrite ?Z.eqb_refl).
  reflexivity.
Qed.

(** * The properties *)

(** C1, as stated, fails: in a successful run the first line of the
    announcement, the data path, is written before the pass socket exists. *)
Lemma announced_when_listening_counterexample :
  ~ (exit_status good_run = 0 ->
     forallb (written_when_listening "/tmp/a1B2c3")
             (history (kernel0 []) (w_trace (final good_run))) = true).
Proof.
  intros H. specialize (H eq_refl). vm_compute in H. discriminate H.
Qed.

(** C1, amended. In every successful run the writes are, in this order,
    the data path, the pass path and [done].  The data path is written
    when the data socket is bound and listening and before the pass
    socket is created: the data socket is then the only socket, and
    nothing listens at the pass path.  The pass path and [done] are
    written when both the data socket and the pass socket are bound and
    listening.  On a kernel that hands out fresh descriptors both are
    still listening when the connection is accepted: a socket listens at
    the pass path from before its announcement until then. *)
Theorem announced_when_listening env rnd o fs0 :
  exit_status (main (boot env rnd o)) = 0 ->
  filter is_dprintf (w_trace (final (main (boot env rnd o))))
  = [EDprintf 1 (data_line (private_dir env rnd)) (to_int (o 6%nat));
     EDprintf 1 (pass_line (private_dir env rnd)) (to_int (o 10%nat));
     EDprintf 1 done_line (to_int (o 11%nat))] /\
  Forall (ready (private_dir env rnd))
         (history (kernel0 fs0) (w_trace (final (main (boot env rnd o))))) /\
  (k_sane (replay (kernel0 fs0) (w_trace (final (main (boot env rnd o))))) = true ->
   Forall (accepted_when_listening (private_dir env rnd))
          (history (kernel0 fs0) (w_trace (final (main (boot env rnd o)))))).
Proof.
  intros H. apply main_exit_0 in H.
  rewrite (main_success_world env rnd o H). cbn [final w_trace].
  split; [reflexivity|].
  split.
  - get_tests H.
    unfold success_calls. cbv zeta.
    match goal with
    | |- Forall _ (history _ ?l) => rewrite <- (firstn_skipn 12 l)
    end.
    cbn [firstn skipn]. rewrite history_app. apply Forall_app. split.
    + do 12 hstep. constructor.
    + apply ready_no_write. reflexivity.
  - intros Hsane.
    destruct (sane_fds env rnd o fs0 H Hsane) as (D1 & D2 & D3 & D4).
    clear Hsane. get_tests H. get_all_distinct.
    unfold success_calls. cbv zeta.
    do 21 hstep.
    constructor.
Qed.

(** The amended C1 on [good_run]. *)
Lemma announced_when_listening_witness :
  exit_status good_run = 0 /\
  k_sane (replay (kernel0 []) (w_trace (final good_run))) = true /\
  filter is_dprintf (w_trace (final good_run))
  = [EDprintf 1 (data_line "/tmp/a1B2c3") 17;
     EDprintf 1 (pass_line "/tmp/a1B2c3") 17;
     EDprintf 1 done_line 5] /\
  Forall (ready "/tmp/a1B2c3") (history (kernel0 []) (w_trace (final good_run))) /\
  Forall (accepted_when_listening "/tmp/a1B2c3")
         (history (kernel0 []) (w_trace (final good_run))).
Proof.
  split; [vm_compute; reflexivity|].
  split; [vm_compute; reflexivity|].
  destruct (announced_when_listening [] "a1B2c3" (answers good_answers) [] eq_refl)
    as (Hl & Hw & Ha).
  split; [vm_compute in Hl; vm_compute; exact Hl|].
  split; [exact Hw|].
  apply Ha. vm_compute. reflexivity.
Defined.

(** C2. In every successful run the handoff is, in this order: one
    [accept4] on the pass socket, the only one of the run, whose new
    descriptor is close-on-exec; the close of the pass socket; the removal
    of [pass] from the private directory; the [sendmsg]; the close of the
    accepted connection; the [free] of the directory string that
    [asprintf] allocated; the close of the data socket; the close of the
    directory handle.  Nothing follows, and [main] returns 0. *)
Theorem handoff_order env rnd o :
  exit_status (main (boot env rnd o)) = 0 ->
  exists pre dirfd datasock passsock connsock r1 r2 r3 r4 r5 r6 p w',
    main (boot env rnd o) = Ret 0 w' /\
    w_trace w' =
      (pre ++ [ EAccept4 passsock SOCK_CLOEXEC connsock;
                EClose passsock r1;
                EUnlinkat dirfd "pass" 0 r2;
                ESendmsg connsock (handoff_msg datasock) 0 r3;
                EClose connsock r4;
                EFree p;
                EClose datasock r5;
                EClose dirfd r6 ])%list /\
    (0 <= connsock /\ 0 <= r1 /\ 0 <= r2 /\ 0 <= r3 /\ 0 <= r4 /\ 0 <= r5 /\ 0 <= r6) /\
    forallb (fun e => negb (is_accept4 e)) pre = true /\
    In (EOpen (private_dir env rnd) (Z.lor O_DIRECTORY O_CLOEXEC) dirfd) pre /\
    (exists r, In (EBind datasock (unix_addr (procfd dirfd "data")) sizeof_sockaddr_un r) pre) /\
    (exists r, In (EBind passsock (unix_addr (procfd dirfd "pass")) sizeof_sockaddr_un r) pre) /\
    (exists r, In (EListen passsock 10 r) pre) /\
    (exists text n, In (EAsprintf text n p) pre) /\
    nth_error (w_heap w') p = Some None /\
    (forall k, fd_lookup connsock
                 (k_fds (replay k (pre ++ [EAccept4 passsock SOCK_CLOEXEC connsock])%list))
               = Some (sock_file Connected true)).
Proof.
  intros H. apply main_exit_0 in H.
  rewrite (main_success_world env rnd o H).
  exists (firstn 13 (success_calls env rnd o)).
  exists (to_int (o 2%nat)), (to_int (o 3%nat)), (to_int (o 7%nat)), (to_int (o 13%nat)).
  exists (to_int (o 14%nat)), (to_int (o 15%nat)), (to_int (o 16%nat)).
  exists (to_int (o 17%nat)), (to_int (o 18%nat)), (to_int (o 19%nat)).
  exists O. eexists. split; [reflexivity|].
  unfold success_calls. cbn [w_trace w_heap firstn nth_error].
  split; [reflexivity|].
  split; [repeat split; result_ok H|].
  split; [reflexivity|].
  split; [cbn [In]; tauto|].
  split; [eexists; cbn [In]; right; right; right; right; left; reflexivity|].
  split; [eexists; cbn [In]; do 8 right; left; reflexivity|].
  split; [eexists; cbn [In]; do 9 right; left; reflexivity|].
  split; [do 2 eexists; cbn [In]; left; reflexivity|].
  split; [reflexivity|].
  intros k. rewrite replay_app. cbn [replay fold_left].
  cbv beta iota delta [step k_fds].
  rewrite accept4_conn by result_ok H. reflexivity.
Qed.

(** C2 on [good_run]. *)
Lemma handoff_order_witness :
  (exit_status (main (boot [] "a1B2c3" (answers good_answers))) = 0) /\
  (exists pre dirfd datasock passsock connsock r1 r2 r3 r4 r5 r6 p w',
    main (boot [] "a1B2c3" (answers good_answers)) = Ret 0 w' /\
    w_trace w' =
      (pre ++ [ EAccept4 passsock SOCK_CLOEXEC connsock;
                EClose passsock r1;
                EUnlinkat dirfd "pass" 0 r2;
                ESendmsg connsock (handoff_msg datasock) 0 r3;
                EClose connsock r4;
                EFree p;
                EClose datasock r5;
                EClose dirfd r6 ])%list /\
    (0 <= connsock /\ 0 <= r1 /\ 0 <= r2 /\ 0 <= r3 /\ 0 <= r4 /\ 0 <= r5 /\ 0 <= r6) /\
    forallb (fun e => negb (is_accept4 e)) pre = true /\
    In (EOpen (private_dir [] "a1B2c3") (Z.lor O_DIRECTORY O_CLOEXEC) dirfd) pre /\
    (exists r, In (EBind datasock (unix_addr (procfd dirfd "data")) sizeof_sockaddr_un r) pre) /\
    (exists r, In (EBind passsock (unix_addr (procfd dirfd "pass")) sizeof_sockaddr_un r) pre) /\
    (exists r, In (EListen passsock 10 r) pre) /\
    (exists text n, In (EAsprintf text n p) pre) /\
    nth_error (w_heap w') p = Some None /\
    (forall k, fd_lookup connsock
                 (k_fds (replay k (pre ++ [EAccept4 passsock SOCK_CLOEXEC connsock])%list))
               = Some (sock_file Connected true))).
Proof.
  split; [vm_compute; reflexivity|].
  apply handoff_order; vm_compute; reflexivity.
Defined.

(** C3. In every successful run there is exactly one [sendmsg]; it is made
    on the connection that [accept4] returned; it carries one byte of
    payload, from one buffer of length 1, and one control message, of
    level SOL_SOCKET and type SCM_RIGHTS, that holds exactly one
    descriptor, the one of the socket bound to [data]; the control
    message lies within the [msg_controllen] bytes of control data that
    are sent, which have no room for a second control message.  On a
    kernel that hands out fresh descriptors the peer receives exactly one
    open file: the data socket, listening. *)
Theorem single_descriptor_message env rnd o :
  exit_status (main (boot env rnd o)) = 0 ->
  exists passsock connsock datasock dirfd r rb c io,
    filter is_sendmsg (w_trace (final (main (boot env rnd o))))
      = [ESendmsg connsock (handoff_msg datasock) 0 r] /\
    0 <= r /\
    In (EAccept4 passsock SOCK_CLOEXEC connsock)
       (w_trace (final (main (boot env rnd o)))) /\
    In (EBind datasock (unix_addr (procfd dirfd "data")) sizeof_sockaddr_un rb)
       (w_trace (final (main (boot env rnd o)))) /\
    msg_iov (handoff_msg datasock) = [io] /\
    msg_iovlen (handoff_msg datasock) = 1 /\
    iov_base io = [0] /\
    iov_len io = 1 /\
    payload (handoff_msg datasock) = Some [0] /\
    msg_control (handoff_msg datasock) = [c] /\
    cmsg_level (cm_hdr c) = SOL_SOCKET /\
    cmsg_type (cm_hdr c) = SCM_RIGHTS /\
    cmsg_len (cm_hdr c) = CMSG_LEN sizeof_int /\
    cmsg_fds c = [datasock] /\
    msg_controllen (handoff_msg datasock) = CMSG_SPACE sizeof_int /\
    sizeof_cmsghdr <= cmsg_len (cm_hdr c) <= msg_controllen (handoff_msg datasock) /\
    msg_controllen (handoff_msg datasock)
      < CMSG_ALIGN (cmsg_len (cm_hdr c)) + sizeof_cmsghdr /\
    cmsgs_within (msg_controllen (handoff_msg datasock)) (msg_control (handoff_msg datasock))
      = [c] /\
    passed_fds (handoff_msg datasock) = [datasock] /\
    (forall fs0,
        k_sane (replay (kernel0 fs0) (w_trace (final (main (boot env rnd o))))) = true ->
        k_passed (replay (kernel0 fs0) (w_trace (final (main (boot env rnd o)))))
        = [sock_file (Listening (private_dir env rnd ++ "/data") 10 0) false]).
Proof.
  intros H. apply main_exit_0 in H.
  rewrite (main_success_world env rnd o H). cbn [final w_trace].
  exists (to_int (o 7%nat)), (to_int (o 13%nat)), (to_int (o 3%nat)), (to_int (o 2%nat)).
  exists (to_int (o 16%nat)), (to_int (o 4%nat)). do 2 eexists.
  split; [reflexivity|].
  split; [result_ok H|].
  split; [unfold success_calls; cbn [In]; do 13 right; left; reflexivity|].
  split; [unfold success_calls; cbn [In]; do 4 right; left; reflexivity|].
  split; [reflexivity|].
  split; [reflexivity|].
  split; [reflexivity|].
  split; [reflexivity|].
  split; [reflexivity|].
  split; [reflexivity|].
  split; [reflexivity|].
  split; [reflexivity|].
  split; [reflexivity|].
  split; [reflexivity|].
  split; [reflexivity|].
  split; [split; vm_compute; discriminate|].
  split; [reflexivity|].
  split; [reflexivity|].
  split; [reflexivity|].
  intros fs0 Hsane.
  apply (success_kernel env rnd o fs0 H Hsane).
Qed.

(** C3 on [good_run]: descriptor 4, the data socket, goes over connection 1. *)
Lemma single_descriptor_message_witness :
  exit_status good_run = 0 /\
  k_sane (replay (kernel0 []) (w_trace (final good_run))) = true /\
  filter is_sendmsg (w_trace (final good_run)) = [ESendmsg 1 (handoff_msg 4) 0 1] /\
  k_passed (replay (kernel0 []) (w_trace (final good_run)))
  = [sock_file (Listening "/tmp/a1B2c3/data" 10 0) false].
Proof.
  split; [vm_compute; reflexivity|].
  split; [vm_compute; reflexivity|].
  destruct (single_descriptor_message [] "a1B2c3" (answers good_answers) eq_refl)
    as (passsock & connsock & datasock & dirfd & r & rb & c & io & Hone & _ & _ & _
        & _ & _ & _ & _ & _ & _ & _ & _ & _ & _ & _ & _ & _ & _ & _ & Hpassed).
  split.
  - vm_compute. reflexivity.
  - apply (Hpassed []). vm_compute. reflexivity.
Defined.

(** C4, as stated, fails: a run in which the three writes to standard
    output fail still exits with status 0, and standard output has
    received nothing. *)
Lemma announcement_lines_counterexample :
  ~ (exit_status mute_run = 0 ->
     k_out (replay (kernel0 []) (w_trace (final mute_run)))
     = [data_line "/tmp/a1B2c3"; pass_line "/tmp/a1B2c3"; done_line]).
Proof.
  intros H. specialize (H eq_refl). vm_compute in H. discriminate H.
Qed.

(** C4, amended. In every successful run the writes are exactly three, all
    to descriptor 1: the data path, the pass path and [done], each ended by
    a newline, in this order; [close(1)] comes immediately after the third
    and immediately before the [accept4], which is the first of the run.
    On a kernel that hands out fresh descriptors, standard output receives
    the lines whose write succeeded, so all three, in order, when no write
    fails. *)
Theorem announcement_lines env rnd o :
  exit_status (main (boot env rnd o)) = 0 ->
  exists pre post r1 r2 r3 rc passsock connsock,
    w_trace (final (main (boot env rnd o)))
      = (pre ++ [EDprintf 1 done_line r3; EClose 1 rc;
                 EAccept4 passsock SOCK_CLOEXEC connsock] ++ post)%list /\
    0 <= rc /\
    forallb (fun e => negb (is_accept4 e)) pre = true /\
    filter is_dprintf (w_trace (final (main (boot env rnd o))))
      = [EDprintf 1 (data_line (private_dir env rnd)) r1;
         EDprintf 1 (pass_line (private_dir env rnd)) r2;
         EDprintf 1 done_line r3] /\
    (forall fs0,
        k_sane (replay (kernel0 fs0) (w_trace (final (main (boot env rnd o))))) = true ->
        k_out (replay (kernel0 fs0) (w_trace (final (main (boot env rnd o)))))
        = (delivered r1 (data_line (private_dir env rnd))
           ++ delivered r2 (pass_line (private_dir env rnd))
           ++ delivered r3 done_line)%list) /\
    (forall fs0,
        k_sane (replay (kernel0 fs0) (w_trace (final (main (boot env rnd o))))) = true ->
        0 <= r1 -> 0 <= r2 -> 0 <= r3 ->
        k_out (replay (kernel0 fs0) (w_trace (final (main (boot env rnd o)))))
        = [data_line (private_dir env rnd); pass_line (private_dir env rnd); done_line]).
Proof.
  intros H. apply main_exit_0 in H.
  rewrite (main_success_world env rnd o H). cbn [final w_trace].
  exists (firstn 11 (success_calls env rnd o)), (skipn 14 (success_calls env rnd o)).
  exists (to_int (o 6%nat)), (to_int (o 10%nat)), (to_int (o 11%nat)).
  exists (to_int (o 12%nat)), (to_int (o 7%nat)), (to_int (o 13%nat)).
  split; [reflexivity|].
  split; [result_ok H|].
  split; [reflexivity|].
  split; [reflexivity|].
  assert (Hout : forall fs0,
    k_sane (replay (kernel0 fs0) (success_calls env rnd o)) = true ->
    k_out (replay (kernel0 fs0) (success_calls env rnd o))
    = (delivered (to_int (o 6%nat)) (data_line (private_dir env rnd))
       ++ delivered (to_int (o 10%nat)) (pass_line (private_dir env rnd))
       ++ delivered (to_int (o 11%nat)) done_line)%list).
  { intros fs0 Hsane. apply (success_kernel env rnd o fs0 H Hsane). }
  split; [exact Hout|].
  intros fs0 Hsane H1 H2 H3. rewrite (Hout fs0 Hsane).
  unfold delivered.
  apply Z.ltb_ge in H1, H2, H3. rewrite H1, H2, H3. reflexivity.
Qed.

(** The amended C4 on [good_run]: the three lines reach standard output. *)
Lemma announcement_lines_witness :
  exit_status good_run = 0 /\
  k_sane (replay (kernel0 []) (w_trace (final good_run))) = true /\
  k_out (replay (kernel0 []) (w_trace (final good_run)))
  = [data_line "/tmp/a1B2c3"; pass_line "/tmp/a1B2c3"; done_line].
Proof.
  split; [vm_compute; reflexivity|].
  split; [vm_compute; reflexivity|].
  destruct (announcement_lines [] "a1B2c3" (answers good_answers) eq_refl)
    as (pre & post & r1 & r2 & r3 & rc & passsock & connsock
        & _ & _ & _ & Hwrites & _ & Hout).
  vm_compute in Hwrites. injection Hwrites as <- <- <-.
  apply (Hout [] eq_refl); lia.
Defined.

(** C5, as stated, fails: when the creation of the pass socket fails the
    process exits with status 1, but the data path has already been
    written to standard output. *)
Lemma binding_failure_counterexample :
  ~ (existsb binding_failed (w_trace (final no_pass_run)) = true ->
     exit_status no_pass_run <> 0 /\
     k_out (replay (kernel0 []) (w_trace (final no_pass_run))) = []).
Proof.
  intros H. destruct (H eq_refl) as [_ Hout].
  vm_compute in Hout. discriminate Hout.
Qed.

(** C5, amended. In every run in which a [socket], [bind] or [listen] call
    fails, the exit status is 1 and neither the pass path nor [done] has
    been written.  The failing call belongs to the data socket or to the
    pass socket, that is the run has made one [socket] call or two.  In
    the first case nothing at all has been written; in the second the
    data path has been written, once, and nothing else. *)
Theorem binding_failure_exit env rnd o :
  existsb binding_failed (w_trace (final (main (boot env rnd o)))) = true ->
  exit_status (main (boot env rnd o)) = 1 /\
  (forall fd text r,
      In (EDprintf fd text r) (w_trace (final (main (boot env rnd o)))) ->
      fd = 1 /\ text = data_line (private_dir env rnd)) /\
  (List.length (filter is_socket (w_trace (final (main (boot env rnd o))))) = 1%nat ->
   filter is_dprintf (w_trace (final (main (boot env rnd o)))) = []) /\
  (List.length (filter is_socket (w_trace (final (main (boot env rnd o))))) = 2%nat ->
   filter is_dprintf (w_trace (final (main (boot env rnd o))))
   = [EDprintf 1 (data_line (private_dir env rnd)) (to_int (o 6%nat))]) /\
  (List.length (filter is_socket (w_trace (final (main (boot env rnd o))))) = 1%nat \/
   List.length (filter is_socket (w_trace (final (main (boot env rnd o))))) = 2%nat).
Proof.
  rewrite main_status, main_trace. unfold_play.
  case_results solve_binding_failure.
  solve_binding_failure.
Qed.

(** The amended C5 on [no_pass_run]: the creation of the pass socket
    fails, and the data path, and nothing else, was written. *)
Lemma binding_failure_exit_witness :
  existsb binding_failed (w_trace (final no_pass_run)) = true /\
  List.length (filter is_socket (w_trace (final no_pass_run))) = 2%nat /\
  exit_status no_pass_run = 1 /\
  filter is_dprintf (w_trace (final no_pass_run))
  = [EDprintf 1 (data_line "/tmp/a1B2c3") 17].
Proof.
  split; [vm_compute; reflexivity|].
  split; [vm_compute; reflexivity|].
  destruct (binding_failure_exit [] "a1B2c3" (answers no_pass_answers))
    as (Hexit & _ & _ & Htwo & _).
  - vm_compute. reflexivity.
  - split; [exact Hexit|].
    assert (H2 : List.length (filter is_socket
                   (w_trace (final (main (boot [] "a1B2c3" (answers no_pass_answers))))))
                 = 2%nat) by (vm_compute; reflexivity).
    apply Htwo in H2. vm_compute in H2. vm_compute. exact H2.
Defined.

(** C6 on the failing path: when the close of the data socket fails, the
    diagnostic names the close of the connection, which had succeeded. *)
Theorem close_data_diagnostic :
  exit_status close_data_run = 1 /\
  (exists pre,
      w_trace (final close_data_run)
      = (pre ++ [EClose 1 0; EFree O; EClose 4 (-1); EErr 1 "close(connsock)"])%list /\
      In (ESocket AF_UNIX SOCK_STREAM 0 4) pre /\
      In (EBind 4 (unix_addr (procfd 3 "data")) sizeof_sockaddr_un 0) pre /\
      In (EAccept4 5 SOCK_CLOEXEC 1) pre) /\
  k_err (replay (kernel0 []) (w_trace (final close_data_run))) = ["close(connsock)"].
Proof.
  split; [vm_compute; reflexivity|].
  split; [|vm_compute; reflexivity].
  exists (firstn 17 (w_trace (final close_data_run))).
  split; [vm_compute; reflexivity|].
  vm_compute. tauto.
Qed.

(** C7, as stated, fails: the directory is opened without O_NOFOLLOW. *)
Lemma directory_handle_flags_counterexample :
  ~ (forall path flags r,
        In (EOpen path flags r) (w_trace (final good_run)) ->
        has_flag flags O_NOFOLLOW = true /\ has_flag flags O_CLOEXEC = true).
Proof.
  intros H.
  destruct (H "/tmp/a1B2c3" (Z.lor O_DIRECTORY O_CLOEXEC) 3) as [Hn _].
  - vm_compute. tauto.
  - vm_compute in Hn. discriminate Hn.
Qed.

(** C7, amended. In every run the only directory opened is the private
    directory, with the flags O_DIRECTORY (the path must name a directory)
    and O_CLOEXEC (the handle is closed across [exec]), and without
    O_NOFOLLOW.  In a successful run there is exactly one [open]; its
    descriptor is the one through which both sockets are bound. *)
Theorem directory_handle_flags env rnd o :
  Forall (opens_handle (private_dir env rnd))
         (w_trace (final (main (boot env rnd o)))) /\
  (exit_status (main (boot env rnd o)) = 0 ->
   exists dirfd datasock passsock r1 r2,
     0 <= dirfd /\
     filter is_open (w_trace (final (main (boot env rnd o))))
       = [EOpen (private_dir env rnd) (Z.lor O_DIRECTORY O_CLOEXEC) dirfd] /\
     In (EBind datasock (unix_addr (procfd dirfd "data")) sizeof_sockaddr_un r1)
        (w_trace (final (main (boot env rnd o)))) /\
     In (EBind passsock (unix_addr (procfd dirfd "pass")) sizeof_sockaddr_un r2)
        (w_trace (final (main (boot env rnd o))))).
Proof.
  split.
  - rewrite main_trace. unfold_play.
    case_results solve_forall. solve_forall.
  - intros H. apply main_exit_0 in H.
    rewrite (main_success_world env rnd o H). cbn [final w_trace].
    exists (to_int (o 2%nat)), (to_int (o 3%nat)), (to_int (o 7%nat)).
    exists (to_int (o 4%nat)), (to_int (o 8%nat)).
    split; [result_ok H|].
    split; [reflexivity|].
    unfold success_calls. split; in_list.
Qed.

(** The amended C7 on [good_run]. *)
Lemma directory_handle_flags_witness :
  exit_status good_run = 0 /\
  Forall (opens_handle "/tmp/a1B2c3") (w_trace (final good_run)) /\
  filter is_open (w_trace (final good_run))
  = [EOpen "/tmp/a1B2c3" (Z.lor O_DIRECTORY O_CLOEXEC) 3].
Proof.
  split; [vm_compute; reflexivity|].
  split.
  - apply (directory_handle_flags [] "a1B2c3" (answers good_answers)).
  - vm_compute. reflexivity.
Defined.

(** C8, as stated, fails: with a name of 100 characters the address that
    is bound is not the descriptor-qualified path, but its first 107
    characters. *)
Lemma listen_unix_socket_counterexample :
  ~ (forall sockfd w',
        listen_unix_socket 3 long_name (boot [] "" (answers [4; 0; 0])) = Ret sockfd w' ->
        In (EBind sockfd (unix_addr (procfd 3 long_name)) sizeof_sockaddr_un 0)
           (w_trace w')).
Proof.
  intros H. specialize (H 4 _ eq_refl). vm_compute in H.
  destruct H as [H|[H|[H|[]]]]; discriminate H.
Qed.

(** C8, amended. For every directory descriptor and every name such that
    the path [/proc/self/fd/<dirfd>/<name>] fits in [sun_path],
    [listen_unix_socket] creates an AF_UNIX stream socket, binds it to
    that path and listens on it with backlog 10, in this order.  It
    returns the socket exactly when the three calls succeed, and then the
    socket is open, listening at that path with backlog 10, and has
    accepted no connection; when one of them fails the process exits with
    status 1. *)
Theorem listen_unix_socket_listening dirfd name w :
  Z.of_nat (String.length (procfd dirfd name)) < sizeof_sun_path ->
  let s := to_int (w_oracle w (w_calls w)) in
  let b := to_int (w_oracle w (S (w_calls w))) in
  let l := to_int (w_oracle w (S (S (w_calls w)))) in
  let addr := {| sun_family := AF_UNIX;
                 sun_path := "/proc/self/fd/" ++ fmt_d dirfd ++ "/" ++ name |} in
  let calls := [ESocket AF_UNIX SOCK_STREAM 0 s;
                EBind s addr sizeof_sockaddr_un b;
                EListen s 10 l] in
  (0 <= s -> 0 <= b -> 0 <= l ->
   listen_unix_socket dirfd name w = Ret s (advance 3 calls w) /\
   (forall k,
       fd_lookup s (k_fds (replay k calls))
       = Some (sock_file
                 (Listening (resolve ((s, sock_file Unbound false) :: k_fds k)
                                     (sun_path addr)) 10 0) false))) /\
  (forall sockfd w',
      listen_unix_socket dirfd name w = Ret sockfd w' ->
      sockfd = s /\ 0 <= s /\ 0 <= b /\ 0 <= l) /\
  (s < 0 \/ b < 0 \/ l < 0 ->
   exists w', listen_unix_socket dirfd name w = Exit 1 w').
Proof.
  intros Hfit s b l addr calls.
  assert (Hrun : listen_unix_socket dirfd name w = bind_and_listen addr s b l w).
  { rewrite listen_unix_socket_run.
    destruct (Z.ltb_spec INT_MAX (Z.of_nat (String.length (procfd dirfd name))))
      as [Hbig|_].
    - unfold sizeof_sun_path, INT_MAX in *. lia.
    - rewrite substring_all by (unfold sizeof_sun_path in *; lia).
      reflexivity. }
  rewrite Hrun.
  split; [|split].
  - intros Hs Hb Hl. split.
    + apply bind_and_listen_ok; assumption.
    + intros k. apply listening_socket; assumption.
  - apply bind_and_listen_ret.
  - apply bind_and_listen_exit.
Qed.

(** The amended C8 for [data] in the directory open at descriptor 3. *)
Lemma listen_unix_socket_listening_witness :
  Z.of_nat (String.length (procfd 3 "data")) < sizeof_sun_path /\
  listen_unix_socket 3 "data" (boot [] "" (answers [4; 0; 0]))
  = Ret 4 (advance 3 [ESocket AF_UNIX SOCK_STREAM 0 4;
                      EBind 4 (unix_addr "/proc/self/fd/3/data") sizeof_sockaddr_un 0;
                      EListen 4 10 0]
                   (boot [] "" (answers [4; 0; 0]))) /\
  fd_lookup 4
    (k_fds (replay (fd_alloc_dir 3 "/tmp/a1B2c3" (kernel0 []))
                   [ESocket AF_UNIX SOCK_STREAM 0 4;
                    EBind 4 (unix_addr "/proc/self/fd/3/data") sizeof_sockaddr_un 0;
                    EListen 4 10 0]))
  = Some (sock_file (Listening "/tmp/a1B2c3/data" 10 0) false).
Proof.
  split; [vm_compute; reflexivity|].
  destruct (listen_unix_socket_listening 3 "data" (boot [] "" (answers [4; 0; 0])))
    as (Hok & _ & _).
  - vm_compute. reflexivity.
  - destruct Hok as [Hret Hsock]; [vm_compute; discriminate ..|].
    split; [exact Hret|].
    pose proof (Hsock (fd_alloc_dir 3 "/tmp/a1B2c3" (kernel0 []))) as Hk.
    vm_compute in Hk. vm_compute. exact Hk.
Defined.

(** C9. In every run the only removal of a file is that of [pass] from the
    private directory, after a connection was accepted; nothing removes
    [data] or the directory.  After a successful run on a kernel that
    hands out fresh descriptors the file system holds what it held before,
    plus the private directory and its entry [data], and does not hold
    the entry [pass]. *)
Theorem only_pass_removed env rnd o :
  Forall (removes_only_pass (private_dir env rnd))
         (with_past [] (w_trace (final (main (boot env rnd o))))) /\
  (forall fs0,
      exit_status (main (boot env rnd o)) = 0 ->
      k_sane (replay (kernel0 fs0) (w_trace (final (main (boot env rnd o))))) = true ->
      (forall p,
          In p (k_fs (replay (kernel0 fs0) (w_trace (final (main (boot env rnd o))))))
          <-> (p = private_dir env rnd ++ "/data" \/ p = private_dir env rnd \/ In p fs0)
              /\ p <> private_dir env rnd ++ "/pass") /\
      exists_path (private_dir env rnd ++ "/data")
        (k_fs (replay (kernel0 fs0) (w_trace (final (main (boot env rnd o)))))) = true /\
      exists_path (private_dir env rnd ++ "/pass")
        (k_fs (replay (kernel0 fs0) (w_trace (final (main (boot env rnd o)))))) = false).
Proof.
  split.
  - rewrite main_trace. unfold_play.
    case_results ltac:(cbn [with_past app]; solve_removals).
    cbn [with_past app]. solve_removals.
  - intros fs0 H Hsane. apply main_exit_0 in H.
    rewrite (main_success_world env rnd o H) in *. cbn [final w_trace] in *.
    destruct (success_kernel env rnd o fs0 H Hsane) as (_ & Hfs & _).
    cbv zeta in Hfs. rewrite Hfs.
    assert (Hin : forall p,
      In p ((private_dir env rnd ++ "/data") :: private_dir env rnd
            :: remove_path (private_dir env rnd ++ "/pass") fs0)
      <-> (p = private_dir env rnd ++ "/data" \/ p = private_dir env rnd \/ In p fs0)
          /\ p <> private_dir env rnd ++ "/pass").
    { intros p. cbn [In]. rewrite in_remove_path.
      pose proof (data_is_not_pass (private_dir env rnd)).
      pose proof (dir_is_not_pass (private_dir env rnd)).
      split.
      - intros [<-|[<-|[Hp Hne]]]; tauto.
      - intros [[->|[->|Hp]] Hne]; tauto. }
    split; [exact Hin|].
    split.
    + cbn [exists_path existsb]. rewrite String.eqb_refl. reflexivity.
    + unfold exists_path.
      destruct (existsb _ _) eqn:He; [|reflexivity].
      apply existsb_exists in He. destruct He as (x & Hx & Heq).
      apply String.eqb_eq in Heq. subst x.
      apply Hin in Hx. tauto.
Qed.

(** C9 on [good_run], from a file system that holds [/tmp]. *)
Lemma only_pass_removed_witness :
  exit_status good_run = 0 /\
  k_sane (replay (kernel0 ["/tmp"]) (w_trace (final good_run))) = true /\
  k_fs (replay (kernel0 ["/tmp"]) (w_trace (final good_run)))
  = ["/tmp/a1B2c3/data"; "/tmp/a1B2c3"; "/tmp"] /\
  exists_path "/tmp/a1B2c3/pass"
    (k_fs (replay (kernel0 ["/tmp"]) (w_trace (final good_run)))) = false.
Proof.
  split; [vm_compute; reflexivity|].
  split; [vm_compute; reflexivity|].
  split; [vm_compute; reflexivity|].
  apply (only_pass_removed [] "a1B2c3" (answers good_answers)); vm_compute; reflexivity.
Defined.

(** C10. [listen_unix_socket] aborts on the address only when [snprintf]
    returns a negative value, which it does only for a text longer than
    INT_MAX.  Otherwise it goes on with what [snprintf] left in
    [sun_path], the first 107 characters of the descriptor-qualified path:
    it binds the socket to that string.  The string bound is the whole
    path exactly when the path is shorter than [sun_path]; when the path
    is longer, the string bound is a proper prefix of it, 107 characters
    long. *)
Theorem listen_unix_socket_truncates dirfd name w :
  let full := "/proc/self/fd/" ++ fmt_d dirfd ++ "/" ++ name in
  let ret := snd (snprintf sizeof_sun_path full) in
  let bound := fst (snprintf sizeof_sun_path full) in
  let s := to_int (w_oracle w (w_calls w)) in
  let b := to_int (w_oracle w (S (w_calls w))) in
  let l := to_int (w_oracle w (S (S (w_calls w)))) in
  (ret < 0 <-> INT_MAX < Z.of_nat (String.length full)) /\
  (ret < 0 ->
   listen_unix_socket dirfd name w = Exit 1 (advance 0 [EErr 1 "snprintf"] w)) /\
  (0 <= ret -> 0 <= s -> 0 <= b -> 0 <= l ->
   listen_unix_socket dirfd name w
   = Ret s (advance 3 [ESocket AF_UNIX SOCK_STREAM 0 s;
                       EBind s {| sun_family := AF_UNIX; sun_path := bound |}
                             sizeof_sockaddr_un b;
                       EListen s 10 l] w)) /\
  (bound = full <-> Z.of_nat (String.length full) < sizeof_sun_path) /\
  (sizeof_sun_path <= Z.of_nat (String.length full) ->
   String.length bound = 107%nat /\ prefix bound full = true /\ bound <> full).
Proof.
  intros full ret bound s b l.
  assert (Hret : ret < 0 <-> INT_MAX < Z.of_nat (String.length full)).
  { unfold ret, snprintf. cbn [snd].
    destruct (Z.ltb_spec INT_MAX (Z.of_nat (String.length full))); lia. }
  assert (Hbound : bound = substring 0 107 full) by reflexivity.
  assert (Hid : bound = full <-> Z.of_nat (String.length full) < sizeof_sun_path).
  { rewrite Hbound, substring_id_iff. unfold sizeof_sun_path. lia. }
  split; [exact Hret|].
  split; [|split; [|split; [exact Hid|]]].
  - intros Hneg. apply Hret in Hneg. apply Z.ltb_lt in Hneg.
    rewrite listen_unix_socket_run.
    change (procfd dirfd name) with full. rewrite Hneg. reflexivity.
  - intros Hpos Hs Hb Hl.
    assert (Hlen : (INT_MAX <? Z.of_nat (String.length full)) = false).
    { apply Z.ltb_ge. lia. }
    rewrite listen_unix_socket_run.
    change (procfd dirfd name) with full. rewrite Hlen.
    apply bind_and_listen_ok; assumption.
  - intros Hlong. unfold sizeof_sun_path in Hlong.
    assert (Hlen : String.length bound = 107%nat).
    { rewrite Hbound. apply substring_length. lia. }
    split; [exact Hlen|]. split.
    + apply prefix_correct. rewrite Hlen. symmetry. exact Hbound.
    + intros Heq. apply Hid in Heq. unfold sizeof_sun_path in Heq. lia.
Qed.

(** C10 for a name of 100 characters in the directory open at descriptor 3. *)
Lemma listen_unix_socket_truncates_witness :
  sizeof_sun_path <= Z.of_nat (String.length (procfd 3 long_name)) /\
  0 <= snd (snprintf sizeof_sun_path (procfd 3 long_name)) /\
  listen_unix_socket 3 long_name (boot [] "" (answers [4; 0; 0]))
  = Ret 4 (advance 3 [ESocket AF_UNIX SOCK_STREAM 0 4;
                      EBind 4 (unix_addr (substring 0 107 (procfd 3 long_name)))
                            sizeof_sockaddr_un 0;
                      EListen 4 10 0]
                   (boot [] "" (answers [4; 0; 0]))) /\
  substring 0 107 (procfd 3 long_name) <> procfd 3 long_name.
Proof.
  split; [vm_compute; discriminate|].
  split; [vm_compute; discriminate|].
  destruct (listen_unix_socket_truncates 3 long_name (boot [] "" (answers [4; 0; 0])))
    as (_ & _ & Hok & _ & Hlong).
  split.
  - apply Hok; vm_compute; discriminate.
  - apply Hlong. vm_compute. discriminate.
Defined.

(** * Further properties *)

(** ** The private directory *)

Lemma nth_error_snoc {A} (l : list A) (x : A) :
  nth_error (l ++ [x]) (List.length l) = Some x.
Proof. induction l as [|y l IH]; [reflexivity | exact IH]. Qed.

Lemma update_snoc {A} (l : list A) (x y : A) :
  update (List.length l) y (l ++ [x]) = (l ++ [y])%list.
Proof.
  induction l as [|z l IH]; [reflexivity|].
  cbn [List.length app update]. rewrite IH. reflexivity.
Qed.

Ltac run_heap :=
  cbv beta iota zeta delta
    [make_private_dir bind ret log next err getenv deref store malloc_string
     asprintf mkdtemp set_trace set_calls set_heap with_block advance
     w_environ w_random w_oracle w_calls w_heap w_trace orb negb Nat.add].

(** What [make_private_dir] does, from any world. *)
Lemma make_private_dir_run w :
  make_private_dir w =
  let tpl := tmpdir_of (w_environ w) ++ "/XXXXXX" in
  let dir := tmpdir_of (w_environ w) ++ "/" ++ w_random w in
  let p := List.length (w_heap w) in
  let r0 := to_int (w_oracle w (w_calls w)) in
  let r1 := to_int (w_oracle w (S (w_calls w))) in
  if r0 <? 0
  then Exit 1 (advance 1 [EAsprintf tpl r0 O; EErr 1 "asprintf"] w)
  else if r1 <? 0
  then Exit 1 (advance 2 [EAsprintf tpl (Z.of_nat (String.length tpl)) p;
                          EMkdtemp tpl None; EErr 1 "mkdtemp"]
                       (with_block dir w))
  else Ret p (advance 2 [EAsprintf tpl (Z.of_nat (String.length tpl)) p;
                         EMkdtemp tpl (Some dir)]
                      (with_block dir w)).
Proof.
  destruct w as [env rnd o n h t].
  cbv zeta. cbn [w_environ w_random w_oracle w_calls w_heap].
  assert (Hdir : forall b, substring 0 (String.length (b ++ "/XXXXXX") - 6) (b ++ "/XXXXXX")
                           ++ rnd = b ++ "/" ++ rnd).
  { intros b. rewrite template_dir, append_assoc. reflexivity. }
  unfold tmpdir_of.
  destruct (lookup_env "XDG_RUNTIME_DIR" env) as [x|] eqn:Hx;
    [| destruct (lookup_env "TMPDIR" env) as [tm|] eqn:Ht];
    run_heap; rewrite ?Hx, ?Ht; run_heap;
    (destruct (to_int (o n) <? 0) eqn:E0; run_heap; rewrite ?E0; run_heap;
     [reassoc|]);
    rewrite ?of_nat_ltb_0; run_heap;
    rewrite nth_error_snoc; run_heap;
    rewrite ends_with_X6_template; run_heap;
    destruct (to_int (o (S n)) <? 0) eqn:E1; run_heap;
    rewrite update_snoc, Hdir; reassoc.
Qed.

(** X1. From any world, when [asprintf] and [mkdtemp] succeed,
    [make_private_dir] returns a fresh heap block that holds the path of
    the directory, the base directory followed by [/] and the name
    [mkdtemp] picked; the blocks that existed are untouched; it makes
    these two calls and no other; and the path is as long as the template
    when the name has six characters, as [mkdtemp] rewrites in place. *)
Theorem make_private_dir_returns w :
  0 <= to_int (w_oracle w (w_calls w)) ->
  0 <= to_int (w_oracle w (S (w_calls w))) ->
  let base := tmpdir_of (w_environ w) in
  let dir := base ++ "/" ++ w_random w in
  let tpl := base ++ "/XXXXXX" in
  let p := List.length (w_heap w) in
  exists w',
    make_private_dir w = Ret p w' /\
    nth_error (w_heap w') p = Some (Some dir) /\
    (forall q, (q < p)%nat -> nth_error (w_heap w') q = nth_error (w_heap w) q) /\
    List.length (w_heap w') = S p /\
    w_trace w' = (w_trace w ++ [EAsprintf tpl (Z.of_nat (String.length tpl)) p;
                                EMkdtemp tpl (Some dir)])%list /\
    w_calls w' = (2 + w_calls w)%nat /\
    w_environ w' = w_environ w /\
    (String.length (w_random w) = 6%nat -> String.length dir = String.length tpl).
Proof.
  intros H0 H1 base dir tpl p.
  apply Z.ltb_ge in H0, H1.
  rewrite make_private_dir_run. cbv zeta. rewrite H0, H1.
  eexists. split; [reflexivity|].
  cbn [advance with_block set_heap w_heap w_trace w_calls w_environ].
  split; [apply nth_error_snoc|].
  split; [intros q Hq; apply nth_error_app1; exact Hq|].
  split; [rewrite length_app; cbn [List.length]; lia|].
  split; [reflexivity|].
  split; [reflexivity|].
  split; [reflexivity|].
  intros Hrnd. unfold dir, tpl. rewrite !length_append, Hrnd. reflexivity.
Qed.

(** X1 with [TMPDIR] set to [/var/tmp] and one block already in the heap. *)
Lemma make_private_dir_returns_witness :
  exists w',
    make_private_dir
      {| w_environ := [("TMPDIR", "/var/tmp")]; w_random := "a1B2c3";
         w_oracle := answers []; w_calls := 0; w_heap := [Some "kept"];
         w_trace := [] |} = Ret 1%nat w' /\
    w_heap w' = [Some "kept"; Some "/var/tmp/a1B2c3"].
Proof.
  destruct (make_private_dir_returns
              {| w_environ := [("TMPDIR", "/var/tmp")]; w_random := "a1B2c3";
                 w_oracle := answers []; w_calls := 0; w_heap := [Some "kept"];
                 w_trace := [] |})
    as (w' & Hret & _); [vm_compute; discriminate ..|].
  exists w'. split; [exact Hret|].
  vm_compute in Hret. injection Hret as <-. reflexivity.
Defined.

(** X2. The base directory is the value of XDG_RUNTIME_DIR when that
    variable is set, whatever TMPDIR is, and also when the value is empty;
    else the value of TMPDIR when that one is set; else [/tmp]. *)
Theorem base_directory_preference w p w' :
  make_private_dir w = Ret p w' ->
  (forall x,
      lookup_env "XDG_RUNTIME_DIR" (w_environ w) = Some x ->
      nth_error (w_heap w') p = Some (Some (x ++ "/" ++ w_random w))) /\
  (forall t,
      lookup_env "XDG_RUNTIME_DIR" (w_environ w) = None ->
      lookup_env "TMPDIR" (w_environ w) = Some t ->
      nth_error (w_heap w') p = Some (Some (t ++ "/" ++ w_random w))) /\
  (lookup_env "XDG_RUNTIME_DIR" (w_environ w) = None ->
   lookup_env "TMPDIR" (w_environ w) = None ->
   nth_error (w_heap w') p = Some (Some ("/tmp/" ++ w_random w))).
Proof.
  rewrite make_private_dir_run. cbv zeta.
  destruct (_ <? 0); [discriminate|].
  destruct (_ <? 0); [discriminate|].
  intros H. injection H as <- <-.
  cbn [advance with_block set_heap w_heap].
  rewrite nth_error_snoc. unfold tmpdir_of.
  repeat split.
  - intros x Hx. rewrite Hx. reflexivity.
  - intros t Hx Ht. rewrite Hx, Ht. reflexivity.
  - intros Hx Ht. rewrite Hx, Ht. reflexivity.
Qed.

(** X2 with XDG_RUNTIME_DIR set to the empty string: the directory is made
    in the root of the file system, and TMPDIR is not looked at. *)
Lemma base_directory_preference_witness :
  exists w',
    make_private_dir (boot [("TMPDIR", "/var/tmp"); ("XDG_RUNTIME_DIR", "")]
                           "a1B2c3" (answers [])) = Ret O w' /\
    nth_error (w_heap w') O = Some (Some "/a1B2c3").
Proof.
  eexists. split; [vm_compute; reflexivity|].
  destruct (base_directory_preference
              (boot [("TMPDIR", "/var/tmp"); ("XDG_RUNTIME_DIR", "")]
                    "a1B2c3" (answers [])) O _ eq_refl) as (Hx & _ & _).
  apply (Hx ""). reflexivity.
Defined.

(** X3. [make_private_dir] returns only when both of its calls succeed.
    When [asprintf] fails it exits with status 1 and the diagnostic
    [asprintf], without calling [mkdtemp] and without a new heap block;
    when [mkdtemp] fails it exits with status 1 and the diagnostic
    [mkdtemp], and the block that [asprintf] allocated stays allocated.
    The template always ends in XXXXXX, so [mkdtemp] is never refused for
    its template. *)
Theorem make_private_dir_exits w :
  let tpl := tmpdir_of (w_environ w) ++ "/XXXXXX" in
  let r0 := to_int (w_oracle w (w_calls w)) in
  let r1 := to_int (w_oracle w (S (w_calls w))) in
  (r0 < 0 ->
   make_private_dir w = Exit 1 (advance 1 [EAsprintf tpl r0 O; EErr 1 "asprintf"] w)) /\
  (0 <= r0 -> r1 < 0 ->
   exists s,
     make_private_dir w
     = Exit 1 (advance 2 [EAsprintf tpl (Z.of_nat (String.length tpl))
                                    (List.length (w_heap w));
                          EMkdtemp tpl None; EErr 1 "mkdtemp"]
                       (with_block s w))) /\
  (forall q w', make_private_dir w = Ret q w' -> 0 <= r0 /\ 0 <= r1) /\
  ends_with_X6 tpl = true.
Proof.
  intros tpl r0 r1. rewrite make_private_dir_run. cbv zeta.
  fold tpl r0 r1.
  split; [|split; [|split]].
  - intros H. apply Z.ltb_lt in H. rewrite H. reflexivity.
  - intros H0 H1. apply Z.ltb_ge in H0. apply Z.ltb_lt in H1.
    rewrite H0, H1. eexists. reflexivity.
  - intros q w'.
    destruct (Z.ltb_spec r0 0); [discriminate|].
    destruct (Z.ltb_spec r1 0); [discriminate|].
    intros _. split; assumption.
  - apply ends_with_X6_template.
Qed.

(** X3 when [mkdtemp] fails: the block is still allocated at exit. *)
Lemma make_private_dir_exits_witness :
  exists w' s,
    make_private_dir (boot [] "a1B2c3" (answers [0; -1])) = Exit 1 w' /\
    w_heap w' = [Some s] /\
    w_trace w' = [EAsprintf "/tmp/XXXXXX" 11 O; EMkdtemp "/tmp/XXXXXX" None;
                  EErr 1 "mkdtemp"].
Proof.
  destruct (make_private_dir_exits (boot [] "a1B2c3" (answers [0; -1])))
    as (_ & Hmk & _).
  destruct Hmk as [s Hs]; [vm_compute; discriminate | vm_compute; reflexivity |].
  eexists. exists s. split; [exact Hs|].
  split; reflexivity.
Defined.

(** ** How runs end *)

Lemma replay_err (tr : list event) (k : kernel) :
  k_err (replay k tr) = (k_err k ++ diagnostics tr)%list.
Proof.
  revert k; induction tr as [|e tr IH]; intros k.
  - cbn [replay fold_left diagnostics]. rewrite List.app_nil_r. reflexivity.
  - rewrite replay_cons, IH.
    destruct e; cbn [step k_err step_err diagnostics]; try reflexivity.
    rewrite <- List.app_assoc. reflexivity.
Qed.

Lemma diagnostics_app (t1 t2 : list event) :
  diagnostics (t1 ++ t2) = (diagnostics t1 ++ diagnostics t2)%list.
Proof.
  induction t1 as [|e t1 IH]; [reflexivity|].
  destruct e; cbn [app diagnostics]; rewrite IH; reflexivity.
Qed.

Lemma diagnostics_none (t : list event) :
  Forall (fun e => is_err e = false) t -> diagnostics t = [].
Proof.
  induction 1 as [|e t He _ IH]; [reflexivity|].
  destruct e; cbn [diagnostics]; try exact IH. discriminate He.
Qed.

(** A list of calls is played to its end, or up to the first labelled
    call that failed. *)
Lemma play_ends (l : list (event * option string)) :
  (snd (play l) = 0 /\
   fst (play l) = map fst l /\
   Forall (fun em => failed (fst em) = true -> snd em = None) l) \/
  (snd (play l) = 1 /\
   exists pre e msg post,
     l = (pre ++ (e, Some msg) :: post)%list /\
     fst (play l) = (map fst pre ++ [e; EErr 1 msg])%list /\
     failed e = true /\
     Forall (fun em => failed (fst em) = true -> snd em = None) pre).
Proof.
  induction l as [|[e [msg|]] l IH].
  - left. repeat split. constructor.
  - cbn [play]. destruct (failed e) eqn:Hf.
    + right. split; [reflexivity|]. exists [], e, msg, l.
      repeat split; [exact Hf | constructor].
    + destruct (play l) as [t s]. cbn [fst snd] in *.
      destruct IH as [(Hs & Ht & Hall)
                     | (Hs & pre & e' & msg' & post & Hl & Ht & Hf' & Hall)].
      * left. split; [exact Hs|]. split; [cbn [map fst]; rewrite Ht; reflexivity|].
        constructor; [cbn [fst snd]; congruence | exact Hall].
      * right. split; [exact Hs|]. exists ((e, Some msg) :: pre), e', msg', post.
        split; [rewrite Hl; reflexivity|].
        split; [cbn [map fst app]; rewrite Ht; reflexivity|].
        split; [exact Hf'|].
        constructor; [cbn [fst snd]; congruence | exact Hall].
  - cbn [play]. destruct (play l) as [t s]. cbn [fst snd] in *.
    destruct IH as [(Hs & Ht & Hall)
                   | (Hs & pre & e' & msg' & post & Hl & Ht & Hf' & Hall)].
    + left. split; [exact Hs|]. split; [cbn [map fst]; rewrite Ht; reflexivity|].
      constructor; [reflexivity | exact Hall].
    + right. split; [exact Hs|]. exists ((e, None) :: pre), e', msg', post.
      split; [rewrite Hl; reflexivity|].
      split; [cbn [map fst app]; rewrite Ht; reflexivity|].
      split; [exact Hf'|].
      constructor; [reflexivity | exact Hall].
Qed.

Lemma attempt_labelled env rnd o : Forall labelled (attempt env rnd o).
Proof.
  unfold attempt. cbv zeta.
  repeat (apply Forall_cons;
          [ unfold labelled; cbn [fst snd is_err is_dprintf failed];
            repeat split; intros; congruence | ]).
  apply Forall_nil.
Qed.

Lemma run_ends_cases env rnd o fs0 :
  (exit_status (main (boot env rnd o)) = 0 /\
   Forall (fun e => failed e = true -> is_dprintf e = true)
          (w_trace (final (main (boot env rnd o)))) /\
   k_err (replay (kernel0 fs0) (w_trace (final (main (boot env rnd o))))) = []) \/
  (exit_status (main (boot env rnd o)) = 1 /\
   exists pre e msg,
     w_trace (final (main (boot env rnd o))) = (pre ++ [e; EErr 1 msg])%list /\
     failed e = true /\
     is_dprintf e = false /\
     Forall (fun e' => failed e' = true -> is_dprintf e' = true) pre /\
     k_err (replay (kernel0 fs0) (w_trace (final (main (boot env rnd o))))) = [msg]).
Proof.
  rewrite main_status, main_trace, replay_err. cbn [kernel0 k_err app].
  pose proof (attempt_labelled env rnd o) as Hlab.
  destruct (play_ends (attempt env rnd o))
    as [(H0 & Htr & Hall) | (H1 & pre & e & msg & post & Hl & Htr & He & Hall)].
  - left. split; [exact H0|]. rewrite Htr. split.
    + apply Forall_map. rewrite Forall_forall in *.
      intros em Hin Hf. apply (Hlab em Hin); [apply (Hall em Hin)|]; exact Hf.
    + apply diagnostics_none, Forall_map. rewrite Forall_forall in *.
      intros em Hin. apply (Hlab em Hin).
  - right. split; [exact H1|]. rewrite Hl in Hlab.
    apply Forall_app in Hlab. destruct Hlab as [Hpre Hrest].
    apply Forall_cons_iff in Hrest. destruct Hrest as [(Herr & _ & Hchk) _].
    cbn [fst snd] in Herr, Hchk.
    exists (map fst pre), e, msg.
    split; [exact Htr|]. split; [exact He|].
    split; [apply Hchk; discriminate|].
    split.
    + apply Forall_map. rewrite Forall_forall in *.
      intros em Hin Hf. apply (Hpre em Hin); [apply (Hall em Hin)|]; exact Hf.
    + rewrite Htr, diagnostics_app, diagnostics_none.
      * destruct e; try discriminate Herr; reflexivity.
      * apply Forall_map. rewrite Forall_forall in *.
        intros em Hin. apply (Hpre em Hin).
Qed.

(** What a run leaves of the heap, and how it ended. *)
Lemma main_heap env rnd o :
  heap_view (main (boot env rnd o)) =
  let freed := existsb is_free (fst (play (attempt env rnd o))) in
  (if to_int (o 0%nat) <? 0 then []
   else if freed then [None]
   else [Some (private_dir env rnd)],
   freed, snd (play (attempt env rnd o)), all_succeed o).
Proof.
  unfold main. unfold bind at 1. rewrite make_private_dir_boot.
  unfold_play.
  run_case 0%nat; [reflexivity|].
  run_case 1%nat; [reflexivity|].
  run_case 2%nat; [reflexivity|].
  run_case 3%nat; [reflexivity|].
  run_case 4%nat; [reflexivity|].
  run_case 5%nat; [reflexivity|].
  run_case 7%nat; [reflexivity|].
  run_case 8%nat; [reflexivity|].
  run_case 9%nat; [reflexivity|].
  run_case 12%nat; [reflexivity|].
  run_case 13%nat; [reflexivity|].
  run_case 14%nat; [reflexivity|].
  run_case 15%nat; [reflexivity|].
  run_case 16%nat; [reflexivity|].
  run_case 17%nat; [reflexivity|].
  run_case 18%nat; [reflexivity|].
  run_case 19%nat; [reflexivity|].
  reflexivity.
Qed.

Lemma main_returned env rnd o : returned (main (boot env rnd o)) = all_succeed o.
Proof.
  pose proof (main_heap env rnd o) as Hh. unfold heap_view in Hh.
  cbv zeta in Hh. injection Hh as _ _ _ Hr. exact Hr.
Qed.

(** X4. Of the runs in which every call returns.  When [main] returns it
    returns 0, no call of the run failed, except perhaps a write, and
    standard error received nothing.  When the process exits through
    [err] the status is 1, the call that failed is not a write and is the
    last call made, every call before it succeeded, except perhaps a
    write, and one diagnostic follows it and is all that standard error
    received. *)
Theorem run_ends env rnd o fs0 :
  (forall a w,
      main (boot env rnd o) = Ret a w ->
      a = 0 /\
      Forall (fun e => failed e = true -> is_dprintf e = true) (w_trace w) /\
      k_err (replay (kernel0 fs0) (w_trace w)) = []) /\
  (forall s w,
      main (boot env rnd o) = Exit s w ->
      s = 1 /\
      exists pre e msg,
        w_trace w = (pre ++ [e; EErr 1 msg])%list /\
        failed e = true /\
        is_dprintf e = false /\
        Forall (fun e' => failed e' = true -> is_dprintf e' = true) pre /\
        k_err (replay (kernel0 fs0) (w_trace w)) = [msg]).
Proof.
  pose proof (main_returned env rnd o) as Hr.
  pose proof (main_exit env rnd o) as Hx.
  pose proof (run_ends_cases env rnd o fs0) as Hc.
  split.
  - intros a w Hm. rewrite Hm in Hr, Hx, Hc.
    cbn [returned exit_status final] in Hr, Hx, Hc.
    rewrite <- Hr in Hx. subst a.
    destruct Hc as [(_ & Hall & Herr) | (H1 & _)]; [|discriminate H1].
    repeat split; assumption.
  - intros s w Hm. rewrite Hm in Hr, Hx, Hc.
    cbn [returned exit_status final] in Hr, Hx, Hc.
    rewrite <- Hr in Hx. subst s.
    destruct Hc as [(H0 & _) | (_ & Hrest)]; [discriminate H0|].
    split; [reflexivity | exact Hrest].
Qed.

(** X4 on the run in which the creation of the pass socket fails. *)
Lemma run_ends_witness :
  exists w pre e msg,
    no_pass_run = Exit 1 w /\
    w_trace w = (pre ++ [e; EErr 1 msg])%list /\
    failed e = true /\
    is_dprintf e = false /\
    k_err (replay (kernel0 []) (w_trace w)) = [msg].
Proof.
  destruct (run_ends [] "a1B2c3" (answers no_pass_answers) []) as [_ Hexit].
  unfold no_pass_run.
  destruct (main (boot [] "a1B2c3" (answers no_pass_answers))) as [a w|s w] eqn:Hm.
  - assert (Hr : returned (main (boot [] "a1B2c3" (answers no_pass_answers))) = false)
      by (vm_compute; reflexivity).
    rewrite Hm in Hr. discriminate Hr.
  - destruct (Hexit s w eq_refl)
      as (-> & pre & e & msg & Htr & He & Hw & _ & Herr).
    exists w, pre, e, msg. repeat split; assumption.
Defined.

Lemma last_two_snoc (l : list event) (a b : event) :
  last_two (l ++ [a; b]) = Some (a, b).
Proof.
  induction l as [|x l IH]; [reflexivity|].
  destruct l as [|y [|z l]]; [reflexivity | reflexivity | exact IH].
Qed.

(** The diagnostic that goes with a call in [main] is the one that names
    the call. *)
Lemma attempt_diagnostics env rnd o :
  Forall (fun em => forall msg m,
              snd em = Some msg -> diagnostic_for (fst em) = Some m -> msg = m)
         (attempt env rnd o).
Proof.
  unfold attempt. cbv zeta.
  repeat (apply Forall_cons;
          [ cbn [fst snd diagnostic_for];
            let H1 := fresh "H" in
            let H2 := fresh "H" in
            intros msg m H1 H2;
            first [ discriminate H1
                  | discriminate H2
                  | injection H1 as <-; injection H2 as <-; reflexivity ]
          | ]).
  apply Forall_nil.
Qed.

(** X5. When a run stops on a failed call that is not a [close], the
    diagnostic names the function of that call, the exit status is 1, and
    for [sendmsg] the diagnostic shows the descriptor the call was made
    on and the descriptor that its control message carries. *)
Theorem diagnostic_names_call env rnd o e status msg m :
  last_two (w_trace (final (main (boot env rnd o)))) = Some (e, EErr status msg) ->
  diagnostic_for e = Some m ->
  status = 1 /\ msg = m.
Proof.
  rewrite main_trace. intros Hl Hd.
  destruct (play_ends (attempt env rnd o))
    as [(_ & Htr & _) | (_ & pre & e0 & msg0 & post & Hatt & Htr & _ & _)];
    rewrite Htr in Hl.
  - unfold attempt in Hl. cbv zeta in Hl. cbn [map fst last_two] in Hl.
    discriminate Hl.
  - rewrite last_two_snoc in Hl. injection Hl as <- <- <-.
    split; [reflexivity|].
    pose proof (attempt_diagnostics env rnd o) as Hall.
    rewrite Hatt in Hall. apply Forall_app in Hall. destruct Hall as [_ Hall].
    apply Forall_cons_iff in Hall. destruct Hall as [Hall _].
    apply (Hall msg0 m eq_refl Hd).
Qed.

(** X5 when [sendmsg] fails on connection 1 with descriptor 4 in the
    control message. *)
Lemma diagnostic_names_call_witness :
  last_two (w_trace (final (main (boot [] "a1B2c3"
              (answers [0; 0; 3; 4; 0; 0; 17; 5; 0; 0; 17; 5; 0; 1; 0; 0; -1])))))
  = Some (ESendmsg 1 (handoff_msg 4) 0 (-1),
          EErr 1 "sendmsg(connsock=1, {msg={datasock=4}})") /\
  diagnostic_for (ESendmsg 1 (handoff_msg 4) 0 (-1))
  = Some "sendmsg(connsock=1, {msg={datasock=4}})".
Proof.
  split; [vm_compute; reflexivity|].
  destruct (diagnostic_names_call [] "a1B2c3"
              (answers [0; 0; 3; 4; 0; 0; 17; 5; 0; 0; 17; 5; 0; 1; 0; 0; -1])
              (ESendmsg 1 (handoff_msg 4) 0 (-1)) 1
              "sendmsg(connsock=1, {msg={datasock=4}})"
              "sendmsg(connsock=1, {msg={datasock=4}})") as [_ Hm].
  - vm_compute. reflexivity.
  - vm_compute. reflexivity.
  - vm_compute. reflexivity.
Defined.

(** ** The writes *)

(** Two lists of calls that differ in the results of writes only, and
    whose checked calls fail alike, are played alike. *)
Lemma play_forget (l l' : list (event * option string)) :
  Forall2 (fun em em' =>
             snd em = snd em' /\
             forget_write_result (fst em) = forget_write_result (fst em') /\
             (snd em <> None -> fst em = fst em')) l l' ->
  snd (play l) = snd (play l') /\
  map forget_write_result (fst (play l)) = map forget_write_result (fst (play l')).
Proof.
  induction 1 as [|[e m] [e' m'] l l' (Hm & He & Hc) _ IH]; [split; reflexivity|].
  cbn [fst snd] in Hm, He, Hc. subst m'.
  destruct m as [msg|]; cbn [play].
  - rewrite <- Hc by discriminate.
    destruct (failed e); [split; reflexivity|].
    destruct (play l) as [t s], (play l') as [t' s']. cbn [fst snd map] in *.
    destruct IH as [-> ->]. split; reflexivity.
  - destruct (play l) as [t s], (play l') as [t' s']. cbn [fst snd map] in *.
    destruct IH as [-> ->]. rewrite He. split; reflexivity.
Qed.

(** X6. The results of the three writes change nothing else: two runs
    whose calls get the same results, except for the writes, exit with
    the same status and make the same calls with the same arguments. *)
Theorem write_results_ignored env rnd o o' :
  (forall n, n <> 6%nat -> n <> 10%nat -> n <> 11%nat -> o n = o' n) ->
  exit_status (main (boot env rnd o)) = exit_status (main (boot env rnd o')) /\
  map forget_write_result (w_trace (final (main (boot env rnd o)))) =
  map forget_write_result (w_trace (final (main (boot env rnd o')))).
Proof.
  intros H.
  rewrite !main_status, !main_trace.
  apply play_forget.
  unfold attempt. cbv zeta.
  rewrite (H 0%nat), (H 1%nat), (H 2%nat), (H 3%nat), (H 4%nat), (H 5%nat),
    (H 7%nat), (H 8%nat), (H 9%nat), (H 12%nat), (H 13%nat), (H 14%nat),
    (H 15%nat), (H 16%nat), (H 17%nat), (H 18%nat), (H 19%nat)
    by (intros Hn; discriminate Hn).
  repeat (apply Forall2_cons;
          [ cbn [fst snd];
            split; [reflexivity|];
            split; [reflexivity|];
            first [ intros _; reflexivity
                  | intros Hn; exfalso; apply Hn; reflexivity ]
          | ]).
  apply Forall2_nil.
Qed.

(** X6 on a run whose writes succeed and a run whose writes fail. *)
Lemma write_results_ignored_witness :
  exit_status good_run = exit_status mute_run /\
  map forget_write_result (w_trace (final good_run)) =
  map forget_write_result (w_trace (final mute_run)).
Proof.
  apply (write_results_ignored [] "a1B2c3" (answers good_answers) (answers mute_answers)).
  intros n H6 H10 H11.
  do 20 (destruct n as [|n]; [first [reflexivity | contradiction]|]).
  destruct n; reflexivity.
Defined.

Ltac solve_write_order :=
  cbn [with_past app];
  repeat (apply Forall_cons;
          [ cbv beta iota delta [writes_before_close fst snd];
            first [exact I | split; reflexivity]
          | ]);
  apply Forall_nil.

(** X7. Every write of a run goes to descriptor 1, and is made before
    the process closes any descriptor. *)
Theorem writes_precede_closes env rnd o :
  Forall writes_before_close (with_past [] (w_trace (final (main (boot env rnd o))))).
Proof.
  rewrite main_trace. unfold_play.
  case_results solve_write_order. solve_write_order.
Qed.

(** ** The directory string *)

Ltac solve_heap_discipline :=
  cbn [with_past app];
  repeat (apply Forall_cons;
          [ cbv beta iota delta [heap_discipline fst snd];
            first
              [ exact I
              | reflexivity
              | split;
                [ do 2 eexists; split; [in_list | apply Nat2Z.is_nonneg]
                | reflexivity ] ]
          | ]);
  apply Forall_nil.

(** X8. The string that holds the name of the directory is allocated by
    [asprintf] and freed at most once; it is read (by [mkdtemp], [open]
    and the writes) only before it is freed.  When the run ends the heap
    holds nothing if [asprintf] failed, a freed block if [free] was
    called, and otherwise a block that is still allocated, which holds
    the name of the directory if [mkdtemp] succeeded.  A run that exits
    with status 0 has called [free]. *)
Theorem directory_string_lifetime env rnd o :
  Forall heap_discipline (with_past [] (w_trace (final (main (boot env rnd o))))) /\
  (to_int (o 0%nat) < 0 -> w_heap (final (main (boot env rnd o))) = []) /\
  (0 <= to_int (o 0%nat) ->
   existsb is_free (w_trace (final (main (boot env rnd o)))) = true ->
   w_heap (final (main (boot env rnd o))) = [None]) /\
  (0 <= to_int (o 0%nat) ->
   existsb is_free (w_trace (final (main (boot env rnd o)))) = false ->
   exists s,
     w_heap (final (main (boot env rnd o))) = [Some s] /\
     (0 <= to_int (o 1%nat) -> s = private_dir env rnd)) /\
  (exit_status (main (boot env rnd o)) = 0 ->
   existsb is_free (w_trace (final (main (boot env rnd o)))) = true).
Proof.
  split.
  { rewrite main_trace. unfold_play.
    case_results solve_heap_discipline. solve_heap_discipline. }
  pose proof (f_equal (fun v => fst (fst (fst v))) (main_heap env rnd o)) as Hheap.
  unfold heap_view in Hheap. cbv beta zeta in Hheap. cbn [fst] in Hheap.
  rewrite main_trace, Hheap.
  split; [|split; [|split]].
  - intros H0. apply Z.ltb_lt in H0. rewrite H0. reflexivity.
  - intros H0 Hf. apply Z.ltb_ge in H0. rewrite H0, Hf. reflexivity.
  - intros H0 Hf. apply Z.ltb_ge in H0. rewrite H0, Hf.
    eexists. split; [reflexivity|]. intros _. reflexivity.
  - intros H0. rewrite <- main_trace. apply main_exit_0 in H0.
    rewrite (main_success_world _ _ _ H0). reflexivity.
Qed.

(** X8 on a successful run, on a run that fails to close the data
    socket, after the [free], and on a run in which the creation of the
    pass socket fails. *)
Lemma directory_string_lifetime_witness :
  existsb is_free (w_trace (final good_run)) = true /\
  w_heap (final close_data_run) = [None] /\
  w_heap (final no_pass_run) = [Some "/tmp/a1B2c3"].
Proof.
  split; [|split].
  - apply (directory_string_lifetime [] "a1B2c3" (answers good_answers)).
    vm_compute. reflexivity.
  - apply (directory_string_lifetime [] "a1B2c3" (answers close_data_answers));
      vm_compute; [discriminate | reflexivity].
  - destruct (directory_string_lifetime [] "a1B2c3" (answers no_pass_answers))
      as (_ & _ & _ & Hkept & _).
    destruct Hkept as (s & Hs & Hdir);
      [vm_compute; discriminate | vm_compute; reflexivity |].
    unfold no_pass_run. rewrite Hs, Hdir; [reflexivity | vm_compute; discriminate].
Defined.

(** ** Invariants of the descriptor table and of the file system *)

Lemma play_events (Q : event -> Prop) (l : list (event * option string)) :
  Forall (fun em => Q (fst em)) l ->
  (forall s m, Q (EErr s m)) ->
  Forall Q (fst (play l)).
Proof.
  intros Hl Herr. induction Hl as [|[e [msg|]] l He _ IH]; cbn [play].
  - constructor.
  - destruct (failed e).
    + cbn [fst]. repeat constructor; [exact He | apply Herr].
    + destruct (play l) as [t s]. cbn [fst] in *. constructor; assumption.
  - destruct (play l) as [t s]. cbn [fst] in *. constructor; assumption.
Qed.

Lemma main_call_shape env rnd o :
  Forall (call_shape (private_dir env rnd)) (w_trace (final (main (boot env rnd o)))).
Proof.
  rewrite main_trace. apply play_events; [|intros s m; split; exact I].
  unfold attempt. cbv zeta.
  repeat (apply Forall_cons;
          [ cbn [fst]; split; cbn [fs_shape flags_shape];
            first [exact I | reflexivity
                  | destruct (_ <? _); first [exact I | reflexivity] ]
          | ]).
  apply Forall_nil.
Qed.

Lemma fd_lookup_In (fd : Z) (t : list (Z * file)) (f : file) :
  fd_lookup fd t = Some f -> In (fd, f) t.
Proof.
  induction t as [|[fd' f'] t IH]; cbn [fd_lookup]; [discriminate|].
  destruct (Z.eqb_spec fd' fd) as [->|_].
  - intros H. injection H as ->. left. reflexivity.
  - intros H. right. apply IH, H.
Qed.

Section Table.

Variable P : file -> Prop.
Variable ok : event -> Prop.

Hypothesis P_open : forall path flags r,
    ok (EOpen path flags r) -> P (dir_file path flags).
Hypothesis P_socket : forall d ty pr r,
    ok (ESocket d ty pr r) -> P (sock_file Unbound (has_flag ty SOCK_CLOEXEC)).
Hypothesis P_conn : forall fd flags r,
    ok (EAccept4 fd flags r) -> P (sock_file Connected (has_flag flags SOCK_CLOEXEC)).
Hypothesis P_bound : forall c p,
    P (sock_file Unbound c) -> P (sock_file (Bound p) c).
Hypothesis P_listening : forall c p b,
    P (sock_file (Bound p) c) -> P (sock_file (Listening p b 0) c).
Hypothesis P_accepted : forall c p b n,
    P (sock_file (Listening p b n) c) -> P (sock_file (Listening p b (S n)) c).

Lemma every_file_lookup (fd : Z) (t : list (Z * file)) (f : file) :
  every_file P t -> fd_lookup fd t = Some f -> P f.
Proof.
  intros Ht Hf. apply fd_lookup_In in Hf.
  unfold every_file in Ht. rewrite Forall_forall in Ht. apply (Ht _ Hf).
Qed.

Lemma every_file_update (fd : Z) (f : file) (t : list (Z * file)) :
  every_file P t -> P f -> every_file P (fd_update fd f t).
Proof.
  intros Ht Hf. induction Ht as [|[fd' f'] t Hf' Ht IH]; cbn [fd_update].
  - constructor.
  - destruct (fd' =? fd); constructor; assumption.
Qed.

Lemma every_file_remove (fd : Z) (t : list (Z * file)) :
  every_file P t -> every_file P (fd_remove fd t).
Proof.
  intros Ht. induction Ht as [|[fd' f'] t Hf' Ht IH]; cbn [fd_remove].
  - constructor.
  - destruct (fd' =? fd); [exact IH | constructor; assumption].
Qed.

Lemma step_table (t : list (Z * file)) (e : event) :
  every_file P t -> ok e -> every_file P (step_fds t e).
Proof.
  intros Ht He.
  destruct e; cbn [step_fds]; try exact Ht;
    try (destruct (_ <? 0); [exact Ht|]).
  - constructor; [apply (P_open _ _ _ He) | exact Ht].
  - constructor; [apply (P_socket _ _ _ _ He) | exact Ht].
  - destruct (fd_lookup fd t) as [[[| | |[]] c]|] eqn:L; try exact Ht.
    apply every_file_update; [exact Ht|].
    apply P_bound, (every_file_lookup _ _ _ Ht L).
  - destruct (fd_lookup fd t) as [[[| | |[]] c]|] eqn:L; try exact Ht.
    apply every_file_update; [exact Ht|].
    apply P_listening, (every_file_lookup _ _ _ Ht L).
  - apply every_file_remove, Ht.
  - destruct (fd_lookup fd t) as [[[| | |[]] c]|] eqn:L;
      (constructor; [apply (P_conn _ _ _ He)|]); try exact Ht.
    apply every_file_update; [exact Ht|].
    apply P_accepted, (every_file_lookup _ _ _ Ht L).
Qed.

Lemma history_table (tr : list event) :
  Forall ok tr ->
  forall k, every_file P (k_fds k) ->
  Forall (fun ke => every_file P (k_fds (fst ke))) (history k tr) /\
  every_file P (k_fds (replay k tr)).
Proof.
  induction 1 as [|e tr He _ IH]; intros k Hk.
  - split; [constructor | exact Hk].
  - rewrite history_cons, replay_cons.
    destruct (IH (step k e)) as [Hh Hr].
    + cbn [step k_fds]. apply step_table; assumption.
    + split; [constructor; assumption | exact Hr].
Qed.

End Table.

Lemma kernel0_inherit (fs0 : list string) : every_file inherit_ok (k_fds (kernel0 fs0)).
Proof. repeat constructor. Qed.

Lemma kernel0_dirs (dir : string) (fs0 : list string) :
  every_file (is_dir_of dir) (k_fds (kernel0 fs0)).
Proof. repeat constructor. Qed.

(** X9. In every run, on every kernel, at the time of each call and when
    the run ends: every open directory and every open connection is
    close-on-exec, every other open file is not.  So a program executed
    by the process would inherit the listening sockets and the standard
    streams, and neither the directory handle nor the connection. *)
Theorem inheritance env rnd o fs0 :
  Forall (fun ke => every_file inherit_ok (k_fds (fst ke)))
         (history (kernel0 fs0) (w_trace (final (main (boot env rnd o))))) /\
  every_file inherit_ok
             (k_fds (replay (kernel0 fs0) (w_trace (final (main (boot env rnd o)))))).
Proof.
  apply (history_table inherit_ok flags_shape).
  - intros path flags r H. exact H.
  - intros d ty pr r H. exact H.
  - intros fd flags r H. exact H.
  - intros c p H. exact H.
  - intros c p b H. exact H.
  - intros c p b n H. exact H.
  - eapply Forall_impl; [|apply (main_call_shape env rnd o)].
    intros e [_ H]. exact H.
  - apply kernel0_inherit.
Qed.

Lemma step_fs_keeps (dir : string) (t : list (Z * file)) (fs : list string)
      (e : event) (p : string) :
  every_file (is_dir_of dir) t -> fs_shape dir e ->
  p <> dir ++ "/pass" -> In p fs -> In p (step_fs t fs e).
Proof.
  intros Ht He Hp Hin.
  destruct e; cbn [step_fs]; try exact Hin.
  - destruct res; [right|]; exact Hin.
  - destruct (_ <? 0); [exact Hin|].
    destruct (fd_lookup fd t) as [[[| | |[]] c]|]; try exact Hin.
    right. exact Hin.
  - destruct (_ <? 0); [exact Hin|].
    destruct (fd_lookup dirfd t) as [[[| |d|] c]|] eqn:L; try exact Hin.
    pose proof (every_file_lookup _ _ _ _ Ht L) as Hd.
    cbv beta iota delta [is_dir_of f_kind] in Hd. cbn [fs_shape] in He. subst d name.
    apply in_remove_path. split; [exact Hin | exact Hp].
Qed.

Lemma replay_fs_keeps (dir : string) (p : string) (tr : list event) :
  Forall (fs_shape dir) tr ->
  p <> dir ++ "/pass" ->
  forall k, every_file (is_dir_of dir) (k_fds k) ->
            In p (k_fs k) -> In p (k_fs (replay k tr)).
Proof.
  intros Htr Hp. induction Htr as [|e tr He _ IH]; intros k Hk Hin.
  - exact Hin.
  - rewrite replay_cons. apply IH; cbn [step k_fds k_fs].
    + apply (step_table (is_dir_of dir) (fs_shape dir)); try assumption;
        try (intros; exact I).
      intros path flags r H. exact H.
    + apply (step_fs_keeps dir); assumption.
Qed.

(** X10. In every run, on every kernel, a directory entry other than
    [pass] in the private directory is never removed: an entry that
    exists at some point of the run, be it there from the start or
    created by the run, still exists when the run ends. *)
Theorem entries_persist env rnd o fs0 t1 t2 p :
  w_trace (final (main (boot env rnd o))) = (t1 ++ t2)%list ->
  In p (k_fs (replay (kernel0 fs0) t1)) ->
  p <> private_dir env rnd ++ "/pass" ->
  In p (k_fs (replay (kernel0 fs0) (t1 ++ t2))).
Proof.
  intros Htr Hin Hp.
  pose proof (main_call_shape env rnd o) as Hshape. rewrite Htr in Hshape.
  assert (Hfs : Forall (fs_shape (private_dir env rnd)) (t1 ++ t2)).
  { eapply Forall_impl; [|exact Hshape]. intros e [H _]. exact H. }
  apply Forall_app in Hfs. destruct Hfs as [H1 H2].
  rewrite replay_app.
  apply (replay_fs_keeps (private_dir env rnd)); try assumption.
  apply (history_table (is_dir_of (private_dir env rnd)) (fs_shape (private_dir env rnd)));
    try (intros; exact I); try assumption.
  - intros path flags r H. exact H.
  - apply kernel0_dirs.
Qed.

(** X10 on the run in which the creation of the pass socket fails: the
    entry of the data socket, made by the fifth call, is there at the end. *)
Lemma entries_persist_witness :
  let tr := w_trace (final (main (boot [] "a1B2c3" (answers no_pass_answers)))) in
  In "/tmp/a1B2c3/data" (k_fs (replay (kernel0 ["/etc"]) (firstn 5 tr ++ skipn 5 tr))).
Proof.
  intros tr.
  apply (entries_persist [] "a1B2c3" (answers no_pass_answers) ["/etc"]
                         (firstn 5 tr) (skipn 5 tr)).
  - symmetry. apply firstn_skipn.
  - vm_compute. left. reflexivity.
  - vm_compute. discriminate.
Defined.

(** ** The descriptors *)

(** X11. A run that exits with status 0 on a kernel that hands out fresh
    descriptors leaves no descriptor of its own open, and has closed
    standard output: the descriptors 0 and 2 are all that is open. *)
Theorem descriptors_released env rnd o fs0 :
  exit_status (main (boot env rnd o)) = 0 ->
  k_sane (replay (kernel0 fs0) (w_trace (final (main (boot env rnd o))))) = true ->
  k_fds (replay (kernel0 fs0) (w_trace (final (main (boot env rnd o)))))
  = [(0, {| f_kind := KStream; f_cloexec := false |});
     (2, {| f_kind := KStream; f_cloexec := false |})].
Proof.
  intros H0 Hsane. apply main_exit_0 in H0.
  rewrite (main_success_world _ _ _ H0) in *. cbn [final w_trace] in *.
  apply (success_kernel env rnd o fs0 H0 Hsane).
Qed.

(** X11 on the successful sample run. *)
Lemma descriptors_released_witness :
  map fst (k_fds (replay (kernel0 []) (w_trace (final good_run)))) = [0; 2].
Proof.
  unfold good_run.
  rewrite (descriptors_released [] "a1B2c3" (answers good_answers) []).
  - reflexivity.
  - vm_compute. reflexivity.
  - vm_compute. reflexivity.
Defined.

(** ** The address of a socket *)

(** X12. For a descriptor that is an [int] and a name of at most 57
    characters the path [/proc/self/fd/<dirfd>/<name>] fits in [sun_path]
    whatever the descriptor is: [snprintf] neither fails nor truncates,
    and [listen_unix_socket] goes on to create the socket and to bind it
    to the whole path. *)
Theorem listen_unix_socket_fits z name w :
  (String.length name <= 57)%nat ->
  let dirfd := to_int z in
  let full := "/proc/self/fd/" ++ fmt_d dirfd ++ "/" ++ name in
  let s := to_int (w_oracle w (w_calls w)) in
  let b := to_int (w_oracle w (S (w_calls w))) in
  let l := to_int (w_oracle w (S (S (w_calls w)))) in
  let so := ESocket AF_UNIX SOCK_STREAM 0 s in
  let bi := EBind s {| sun_family := AF_UNIX; sun_path := full |} sizeof_sockaddr_un b in
  let li := EListen s 10 l in
  snprintf sizeof_sun_path full = (full, Z.of_nat (String.length full)) /\
  (String.length full <= 107)%nat /\
  listen_unix_socket dirfd name w =
    if s <? 0 then Exit 1 (advance 1 [so; EErr 1 "socket"] w)
    else if b <? 0 then Exit 1 (advance 2 [so; bi; EErr 1 "bind"] w)
    else if l <? 0 then Exit 1 (advance 3 [so; bi; li; EErr 1 "listen"] w)
    else Ret s (advance 3 [so; bi; li] w).
Proof.
  intros Hname dirfd full s b l so bi li.
  pose proof (procfd_length z name) as Hlen.
  change (procfd (to_int z) name) with full in Hlen.
  split; [apply (snprintf_procfd z name Hname)|].
  split; [lia|].
  rewrite listen_unix_socket_run.
  change (procfd dirfd name) with full.
  destruct (Z.ltb_spec INT_MAX (Z.of_nat (String.length full))) as [Hbig|_].
  - unfold INT_MAX in Hbig. lia.
  - rewrite substring_all by (unfold sizeof_sun_path; lia).
    reflexivity.
Qed.

(** X12 for the least [int], whose text is the longest, and a name of 57
    characters. *)
Lemma listen_unix_socket_fits_witness :
  String.length ("/proc/self/fd/" ++ fmt_d (to_int (-2147483648)) ++ "/"
                 ++ substring 0 57 long_name) = 83%nat /\
  exists w',
    listen_unix_socket (to_int (-2147483648)) (substring 0 57 long_name)
                       (boot [] "" (answers [4; 0; 0])) = Ret 4 w'.
Proof.
  split; [vm_compute; reflexivity|].
  destruct (listen_unix_socket_fits (-2147483648) (substring 0 57 long_name)
                                    (boot [] "" (answers [4; 0; 0])))
    as (_ & _ & Hrun).
  - vm_compute. lia.
  - rewrite Hrun. vm_compute. eexists. reflexivity.
Defined.

Lemma slash_free_digits (u : Decimal.uint) :
  slash_free (NilEmpty.string_of_uint u) = true.
Proof. induction u; cbn [NilEmpty.string_of_uint slash_free]; try exact IHu; reflexivity. Qed.

Lemma slash_free_uint (u : Decimal.uint) :
  slash_free (NilZero.string_of_uint u) = true.
Proof. destruct u; try reflexivity; apply (slash_free_digits (_ u)). Qed.

Lemma slash_free_fmt_d (z : Z) : slash_free (fmt_d z) = true.
Proof.
  unfold fmt_d.
  destruct (Z.to_int z) as [u|u]; cbn [NilZero.string_of_int].
  - apply slash_free_uint.
  - change (slash_free (NilZero.string_of_uint u) = true). apply slash_free_uint.
Qed.

Lemma fmt_d_inj (z z' : Z) : fmt_d z = fmt_d z' -> z = z'.
Proof.
  unfold fmt_d. intros H.
  apply DecimalZ.to_int_inj.
  assert (Hnn : forall n, Z.to_int n <> Decimal.Pos Decimal.Nil /\
                          Z.to_int n <> Decimal.Neg Decimal.Nil).
  { intros [|p|p]; cbn [Z.to_int]; split; try discriminate;
      intros Hp; injection Hp as Hp; apply (DecimalPos.Unsigned.to_uint_nonnil p Hp). }
  destruct (Hnn z) as [Hp Hn]. destruct (Hnn z') as [Hp' Hn'].
  pose proof (NilZero.isi _ Hp Hn) as Hz.
  pose proof (NilZero.isi _ Hp' Hn') as Hz'.
  rewrite H in Hz. rewrite Hz in Hz'. injection Hz' as Hz'. exact Hz'.
Qed.

(** Two texts without [/], each followed by [/] and more, are equal when
    the whole texts are. *)
Lemma slash_split (a b s t : string) :
  slash_free a = true -> slash_free b = true ->
  a ++ "/" ++ s = b ++ "/" ++ t -> a = b /\ s = t.
Proof.
  revert b. induction a as [|c a IH]; intros [|c' b] Ha Hb H.
  - injection H as H. split; [reflexivity | exact H].
  - injection H as Hc _. subst c'. discriminate Hb.
  - injection H as Hc _. subst c. discriminate Ha.
  - injection H as Hc H. subst c'.
    cbn [slash_free] in Ha, Hb.
    apply andb_true_iff in Ha, Hb. destruct Ha as [_ Ha]. destruct Hb as [_ Hb].
    destruct (IH b Ha Hb H) as [-> ->]. split; reflexivity.
Qed.

Lemma append_inj_l (p s t : string) : p ++ s = p ++ t -> s = t.
Proof.
  induction p as [|c p IH]; intros H; [exact H|].
  injection H as H. apply IH, H.
Qed.

(** X13. The address that [listen_unix_socket] builds tells the
    descriptor and the name apart: for descriptors that are [int]s and
    names of at most 57 characters, two calls leave the same text in
    [sun_path] only when they have the same descriptor and the same
    name. *)
Theorem socket_paths_distinct z z' name name' :
  (String.length name <= 57)%nat ->
  (String.length name' <= 57)%nat ->
  fst (snprintf sizeof_sun_path ("/proc/self/fd/" ++ fmt_d (to_int z) ++ "/" ++ name)) =
  fst (snprintf sizeof_sun_path ("/proc/self/fd/" ++ fmt_d (to_int z') ++ "/" ++ name')) ->
  to_int z = to_int z' /\ name = name'.
Proof.
  intros Hn Hn' H.
  change ("/proc/self/fd/" ++ fmt_d (to_int z) ++ "/" ++ name)
    with (procfd (to_int z) name) in H.
  change ("/proc/self/fd/" ++ fmt_d (to_int z') ++ "/" ++ name')
    with (procfd (to_int z') name') in H.
  rewrite !snprintf_procfd in H by assumption. cbn [fst] in H.
  unfold procfd in H. apply append_inj_l in H.
  apply slash_split in H; try apply slash_free_fmt_d.
  destruct H as [Hz Hname]. split; [apply fmt_d_inj, Hz | exact Hname].
Qed.

(** X13 for the two sockets of [main] in the directory at descriptor 3. *)
Lemma socket_paths_distinct_witness :
  fst (snprintf sizeof_sun_path ("/proc/self/fd/" ++ fmt_d (to_int 3) ++ "/" ++ "data")) <>
  fst (snprintf sizeof_sun_path ("/proc/self/fd/" ++ fmt_d (to_int 3) ++ "/" ++ "pass")).
Proof.
  intros H.
  destruct (socket_paths_distinct 3 3 "data" "pass") as [_ Hname].
  - vm_compute. lia.
  - vm_compute. lia.
  - exact H.
  - discriminate Hname.
Defined.

(** ** Standard output is closed before a connection is accepted *)

Lemma with_past_split (past t1 t2 : list event) (e : event) :
  In ((past ++ t1)%list, e) (with_past past (t1 ++ e :: t2)).
Proof.
  revert past. induction t1 as [|x t1 IH]; intros past; cbn [app with_past].
  - left. rewrite List.app_nil_r. reflexivity.
  - right. specialize (IH (past ++ [x])%list).
    rewrite <- List.app_assoc in IH. exact IH.
Qed.

Lemma fd_open_remove (fd : Z) (t : list (Z * file)) :
  fd_open fd (fd_remove fd t) = false.
Proof.
  unfold fd_open. induction t as [|[fd' f] t IH]; [reflexivity|].
  cbn [fd_remove]. destruct (fd' =? fd) eqn:E; [exact IH|].
  cbn [fd_lookup]. rewrite E. exact IH.
Qed.

Ltac solve_handoff :=
  cbn [with_past app];
  repeat (apply Forall_cons;
          [ cbv beta iota delta [begins_handoff fst snd];
            first
              [ exact I
              | split;
                [ eexists; split; [reflexivity | apply Z.ltb_ge; assumption]
                | reflexivity ] ]
          | ]);
  apply Forall_nil.

Lemma main_begins_handoff env rnd o :
  Forall begins_handoff (with_past [] (w_trace (final (main (boot env rnd o))))).
Proof.
  rewrite main_trace. unfold_play.
  case_results solve_handoff. solve_handoff.
Qed.

(** X14. In every run, on every kernel, when the process calls
    [accept4] it has made its three writes and has just closed standard
    output: the call before is [close(1)], it succeeded, and descriptor 1
    is not open. *)
Theorem output_closed_before_accept env rnd o fs0 t1 t2 fd flags r :
  w_trace (final (main (boot env rnd o))) = (t1 ++ EAccept4 fd flags r :: t2)%list ->
  (exists past c, t1 = (past ++ [EClose 1 c])%list /\ 0 <= c) /\
  List.length (filter is_dprintf t1) = 3%nat /\
  fd_open 1 (k_fds (replay (kernel0 fs0) t1)) = false.
Proof.
  intros Htr.
  pose proof (main_begins_handoff env rnd o) as Hall. rewrite Htr in Hall.
  rewrite Forall_forall in Hall.
  specialize (Hall _ (with_past_split [] t1 t2 (EAccept4 fd flags r))).
  cbv beta iota delta [begins_handoff fst snd] in Hall. cbn [app] in Hall.
  destruct Hall as [(c & Hlast & Hc) Hw].
  assert (Ht1 : t1 = (removelast t1 ++ [EClose 1 c])%list).
  { rewrite <- Hlast. apply app_removelast_last.
    intros ->. discriminate Hlast. }
  split; [exists (removelast t1), c; split; assumption|].
  split; [exact Hw|].
  rewrite Ht1, replay_app. cbn [replay fold_left step k_fds step_fds].
  apply Z.ltb_ge in Hc. rewrite Hc. apply fd_open_remove.
Qed.

(** X14 on the successful sample run, whose accept is the fourteenth
    call. *)
Lemma output_closed_before_accept_witness :
  let tr := w_trace (final (main (boot [] "a1B2c3" (answers good_answers)))) in
  fd_open 1 (k_fds (replay (kernel0 []) (firstn 13 tr))) = false.
Proof.
  intros tr.
  apply (output_closed_before_accept [] "a1B2c3" (answers good_answers) []
           (firstn 13 tr) (skipn 14 tr) 5 SOCK_CLOEXEC 1).
  vm_compute. reflexivity.
Defined.
